(** * Delegation exchange and token lifecycle of Zetkolink/auth

    A shallow embedding of the model layer of the service
    (packages [models/exchanges], [models/apps], [models/tokens] and the
    helper [helpers.RandomStr]) together with the properties of the
    delegation engine that the specification states about it.

    The relational store is a value of type [Store]; every method of the
    Go models becomes a computation in a small reader/state/error/log monad
    [M]: it reads the environment (storage faults, clock, random source,
    OAuth2 provider), threads the store, may stop with an [error], and logs
    every SQL statement and provider call it issues. *)

From Stdlib Require Import ZArith Strings.Byte Ascii String List Bool Lia.
From Stdlib Require DecimalString.
From stdpp Require Import gmap strings list fin_maps.

Local Open Scope Z_scope.
Local Open Scope string_scope.

(** ** Data model *)

(** [time.Time], as seconds on some clock. *)
Definition time := Z.

(** The part of [golang.org/x/oauth2] the models use. *)
Module oauth2.

(** The four provider endpoints the code refers to
    ([yandex.Endpoint], [google.Endpoint], [mailru.Endpoint],
    [vk.Endpoint]) and the zero value of [oauth2.Endpoint]. *)
Inductive endpoint : Set :=
| zero_Endpoint
| yandex_Endpoint
| google_Endpoint
| mailru_Endpoint
| vk_Endpoint.

Record Token : Set := {
  AccessToken : string;
  TokenType : string;
  RefreshToken : string;
  Expiry : time
}.

Record Config : Set := {
  ClientID : string;
  ClientSecret : string;
  Endpoint : endpoint;
  RedirectURL : string;
  Scopes : list string
}.

(** [Config.AuthCodeURL(state)]: the consent-page URL of the provider,
    carrying the configuration's client and the [state] parameter. *)
Inductive URL : Set :=
| AuthCodeURL (conf : Config) (state : string).

End oauth2.

(** [exchanges.Exchange] *)
Module Exchange.
Record t : Set := {
  ID : string;
  Service : string;
  UserID : Z
}.
End Exchange.

(** [apps.App]; a row of [auth.apps] has the same seven columns. *)
Module App.
Record t : Set := {
  ID : string;
  Service : string;
  Password : string;
  CallbackURL : string;
  Expiry : option time;
  CreatedAt : option time;
  Status : string
}.

(** [var app App] *)
Definition zero : t :=
  {| ID := ""; Service := ""; Password := ""; CallbackURL := "";
     Expiry := None; CreatedAt := None; Status := "" |}.
End App.

(** [tokens.Token]; a row of [auth.tokens] has the same seven columns. *)
Module Token.
Record t : Set := {
  Token : oauth2.Token;
  UserID : Z;
  Service : string;
  CreatedAt : time
}.
End Token.

(** Errors a model method can return. *)
Inductive error : Set :=
| sql_ErrNoRows          (* database/sql: [Scan] on a result without rows *)
| driver_error           (* any other failure reported by the SQL driver *)
| unique_violation       (* pq error 23505, when not translated *)
| apps_ErrNotFound       (* "app not found" *)
| apps_ErrExists         (* "app exists" *)
| apps_ErrStatus         (* "app status unavailable" *)
| apps_ErrService        (* "app service unavailable" *)
| tokens_ErrNotFound     (* "token not found" *)
| provider_error         (* the OAuth2 provider call failed *)
| rand_error             (* crypto/rand could not deliver *)
| runtime_panic.         (* a Go run-time panic unwinding the call *)

Inductive result (A : Type) : Type :=
| Ok (a : A)
| Err (e : error).
Arguments Ok {A} a.
Arguments Err {A} e.

(** Every interaction with the outside world: the SQL statements (with
    their bound parameters), the provider calls and the random source. *)
Inductive event : Set :=
| SelectToken (userID service : string)
| UpdateTokens (userID accessToken refreshToken : string) (expiry createdAt : time)
| UpsertToken (row : Token.t)
| SelectExchange (id : string)
| InsertExchange (ex : Exchange.t)
| DeleteExchange (id : string)
| SelectAppByID (id : string)
| SelectAppByService (service status : string)
| UpdateAppStatus (id status : string)
| InsertApp (app : App.t) (createdAt : time)
| ProviderExchange (conf : oauth2.Config) (code : string)
| ProviderTokenSource (conf : oauth2.Config) (tok : oauth2.Token)
| RandRead (n : Z).

(** The non-key columns of a row of [auth.exchanges] and of [auth.tokens]. *)
Record exchange_row : Set := {
  x_service : string;
  x_user_id : Z
}.

Record token_row : Set := {
  k_token_type : string;
  k_access_token : string;
  k_expiry : time;
  k_refresh_token : string;
  k_created_at : time
}.

(** Modelled from the spec: the three tables. Their schema is not part of
    the sources; the specification gives the keys ([auth.exchanges] keyed
    by [id], [auth.tokens] unique on [(user_id, service)], which the
    [ON CONFLICT (user_id, service)] clause of [tokens.Create] relies on,
    [auth.apps] keyed by [id]). The two tables that are only reached
    through their key are finite maps from the key to the other columns;
    [auth.apps] is a list of rows because it is also searched by service,
    where [QueryRow] takes the first row of the result. *)
Record Store : Type := {
  apps_t : list App.t;
  exchanges_t : gmap string exchange_row;
  tokens_t : gmap (Z * string) token_row
}.

(** What a call depends on besides the store. *)
Record Env : Type := {
  (** the driver fails on this statement (connection lost, timeout, ...) *)
  fault : event -> bool;
  (** conversion by the server of a text parameter bound to the integer
      column [user_id]; [None] when the text is not an integer *)
  int4in : string -> option Z;
  (** [time.Now()] *)
  now : time;
  (** [crypto/rand.Read]: failure, and otherwise the bytes it delivers *)
  rand_fails : bool;
  rand_byte : nat -> byte;
  (** [Config.Exchange(ctx, code)]: the authorization-code grant *)
  provider_exchange : oauth2.Config -> string -> result oauth2.Token;
  (** [Config.TokenSource(ctx, t).Token()]: a valid token, refreshed
      through the provider if needed; the token passed in is not modified *)
  provider_token : oauth2.Config -> oauth2.Token -> result oauth2.Token
}.

(** ** The monad of model methods *)

Record World : Type := {
  store : Store;
  log : list event        (* oldest first *)
}.

Definition M (A : Type) : Type := Env -> World -> result A * World.

Definition ret {A} (a : A) : M A := fun _ w => (Ok a, w).

Definition bind {A B} (m : M A) (k : A -> M B) : M B :=
  fun env w =>
    match m env w with
    | (Ok a, w') => k a env w'
    | (Err e, w') => (Err e, w')
    end.

Definition fail {A} (e : error) : M A := fun _ w => (Err e, w).

Declare Scope go_scope.
Delimit Scope go_scope with go.
Notation "x <- m ;; k" := (bind m (fun x => k))
  (at level 100, m at next level, right associativity) : go_scope.
Notation "m ;;; k" := (bind m (fun _ => k))
  (at level 100, right associativity) : go_scope.
Local Open Scope go_scope.

Definition ask : M Env := fun env w => (Ok env, w).
Definition get_store : M Store := fun _ w => (Ok (store w), w).
Definition put_store (s : Store) : M unit :=
  fun _ w => (Ok tt, {| store := s; log := log w |}).
Definition emit (ev : event) : M unit :=
  fun _ w => (Ok tt, {| store := store w; log := log w ++ [ev] |}).

(** Send a statement to the database: it is logged, and the driver may
    fail on it, in which case the statement has no effect. *)
Definition send (ev : event) : M unit :=
  emit ev ;;;
  env <- ask ;;
  if fault env ev then fail driver_error else ret tt.

(** [_ = f(...)]: the call is made, its error is dropped. *)
Definition discard {A} (m : M A) : M unit :=
  fun env w => (Ok tt, snd (m env w)).

(** Run a method on a store, with an empty log. *)
Definition run {A} (m : M A) (env : Env) (s : Store) : result A * World :=
  m env {| store := s; log := [] |}.

(** ** Package [helpers] *)

Module helpers.

Definition chars : list byte :=
  list_byte_of_string
    "0123456789abcdefghijklmnopqrstuvwxyzABCDEFGHIJKLMNOPQRSTUVWXYZ".

(** [chars[b%byte(len(chars))]]: [len(chars)] is 62, which fits a byte;
    the index is below 62, so the default of [nth] is never used. *)
Definition pick (b : byte) : byte :=
  nth (N.to_nat (Byte.to_N b mod N.of_nat (length chars))) chars x00.

(** [RandomStr]: [make] panics on a negative length; [rand.Read] fills
    the whole slice or fails; the loop replaces every byte, in place,
    by the character it selects. *)
Definition RandomStr (length : Z) : M string :=
  if (length <? 0)%Z then fail runtime_panic else
  emit (RandRead length) ;;;
  env <- ask ;;
  if rand_fails env then fail rand_error else
  let bytes := map (rand_byte env) (seq 0 (Z.to_nat length)) in
  let bytes := map pick bytes in
  ret (string_of_list_byte bytes).

End helpers.

(** ** Package [exchanges] *)

Module exchanges.

Definition Get (id : string) : M Exchange.t :=
  send (SelectExchange id) ;;;
  s <- get_store ;;
  match exchanges_t s !! id with
  | None => fail sql_ErrNoRows
  | Some r =>
      ret {| Exchange.ID := id;
             Exchange.Service := x_service r;
             Exchange.UserID := x_user_id r |}
  end.

(** A second row under an existing [id] violates the primary key; the
    driver's error is returned as it is. *)
Definition Create (exchange : Exchange.t) : M string :=
  send (InsertExchange exchange) ;;;
  s <- get_store ;;
  match exchanges_t s !! Exchange.ID exchange with
  | Some _ => fail unique_violation
  | None =>
      put_store
        {| apps_t := apps_t s;
           exchanges_t :=
             <[Exchange.ID exchange :=
                 {| x_service := Exchange.Service exchange;
                    x_user_id := Exchange.UserID exchange |}]>
               (exchanges_t s);
           tokens_t := tokens_t s |} ;;;
      ret (Exchange.ID exchange)
  end.

Definition Delete (id : string) : M unit :=
  send (DeleteExchange id) ;;;
  s <- get_store ;;
  put_store
    {| apps_t := apps_t s;
       exchanges_t := delete id (exchanges_t s);
       tokens_t := tokens_t s |}.

End exchanges.

(** ** Package [apps] *)

Module apps.

Definition StatusEnable := "enable".
Definition StatusDisable := "disable".

Definition Google := "google".
Definition Yandex := "yandex".
Definition Mail := "mail".
Definition VK := "vk".

(** The static scope table, a Go [map[string][]string]; reading a key
    that is absent gives the nil slice. *)
Definition scopes : gmap string (list string) :=
  <[Yandex := ["mail:imap_ro"]]>
    (<[Google :=
         ["https://www.googleapis.com/github.com/Zetkolink/auth/gmail.addons.current.message.readonly"]]>
       ∅).

Definition scopes_at (service : string) : list string :=
  default [] (scopes !! service).

(** The six columns the three lookups select and scan; [Status] is not
    among them and keeps its zero value. *)
Definition scan (row : App.t) : App.t :=
  {| App.ID := App.ID row;
     App.Service := App.Service row;
     App.Password := App.Password row;
     App.CallbackURL := App.CallbackURL row;
     App.Expiry := App.Expiry row;
     App.CreatedAt := App.CreatedAt row;
     App.Status := "" |}.

Definition by_id (id : string) (row : App.t) : bool :=
  String.eqb (App.ID row) id.

Definition by_service (service status : string) (row : App.t) : bool :=
  String.eqb (App.Service row) service && String.eqb (App.Status row) status.

Definition GetByID (id : string) : M App.t :=
  send (SelectAppByID id) ;;;
  s <- get_store ;;
  match find (by_id id) (apps_t s) with
  | None => fail sql_ErrNoRows
  | Some row => ret (scan row)
  end.

Definition GetByService (service : string) : M App.t :=
  send (SelectAppByService service StatusEnable) ;;;
  s <- get_store ;;
  match find (by_service service StatusEnable) (apps_t s) with
  | None => fail sql_ErrNoRows
  | Some row => ret (scan row)
  end.

Definition with_endpoint (conf : oauth2.Config) (e : oauth2.endpoint)
  : oauth2.Config :=
  {| oauth2.ClientID := oauth2.ClientID conf;
     oauth2.ClientSecret := oauth2.ClientSecret conf;
     oauth2.Endpoint := e;
     oauth2.RedirectURL := oauth2.RedirectURL conf;
     oauth2.Scopes := oauth2.Scopes conf |}.

Definition GetConf (service : string) : M oauth2.Config :=
  send (SelectAppByService service StatusEnable) ;;;
  s <- get_store ;;
  match find (by_service service StatusEnable) (apps_t s) with
  | None => fail sql_ErrNoRows
  | Some row =>
      let app := scan row in
      let conf :=
        {| oauth2.ClientID := App.ID app;
           oauth2.ClientSecret := App.Password app;
           oauth2.Endpoint := oauth2.zero_Endpoint;
           oauth2.RedirectURL := App.CallbackURL app;
           oauth2.Scopes := scopes_at (App.Service app) |} in
      if String.eqb (App.Service app) Yandex then
        ret (with_endpoint conf oauth2.yandex_Endpoint)
      else if String.eqb (App.Service app) Google then
        ret (with_endpoint conf oauth2.google_Endpoint)
      else if String.eqb (App.Service app) Mail then
        ret (with_endpoint conf oauth2.mailru_Endpoint)
      else if String.eqb (App.Service app) VK then
        ret (with_endpoint conf oauth2.vk_Endpoint)
      else fail apps_ErrService
  end.

Definition AuthCodeURL (service : string) (userID : Z) : M oauth2.URL :=
  conf <- GetConf service ;;
  id <- helpers.RandomStr 32 ;;
  let exchange :=
    {| Exchange.ID := id;
       Exchange.Service := service;
       Exchange.UserID := userID |} in
  exchanges.Create exchange ;;;
  ret (oauth2.AuthCodeURL conf (Exchange.ID exchange)).

(** [Row.Scan()] without destinations on a result of [nrows] rows:
    [sql.ErrNoRows] when there is no row to move to. *)
Definition Row_Scan (nrows : nat) : option error :=
  match nrows with
  | O => Some sql_ErrNoRows
  | S _ => None
  end.

Definition set_status (status : string) (row : App.t) : App.t :=
  {| App.ID := App.ID row;
     App.Service := App.Service row;
     App.Password := App.Password row;
     App.CallbackURL := App.CallbackURL row;
     App.Expiry := App.Expiry row;
     App.CreatedAt := App.CreatedAt row;
     App.Status := status |}.

(** The [UPDATE] is sent through [QueryRow]; it has no [RETURNING]
    clause, so the result it is scanned from has no rows. [app] is
    declared and never assigned. *)
Definition SetStatus (id status : string) : M App.t :=
  let app := App.zero in
  if negb (String.eqb status StatusDisable)
     && negb (String.eqb status StatusEnable)
  then fail apps_ErrStatus
  else
    send (UpdateAppStatus id status) ;;;
    s <- get_store ;;
    put_store
      {| apps_t :=
           map (fun row => if by_id id row then set_status status row else row)
               (apps_t s);
         exchanges_t := exchanges_t s;
         tokens_t := tokens_t s |} ;;;
    match Row_Scan 0 with
    | Some err => fail err
    | None => ret app
    end.

(** A row under an existing [id] violates the primary key (pq code
    23505), which is translated to [ErrExists]. *)
Definition Create (app : App.t) : M string :=
  env <- ask ;;
  send (InsertApp app (now env)) ;;;
  s <- get_store ;;
  match find (by_id (App.ID app)) (apps_t s) with
  | Some _ => fail apps_ErrExists
  | None =>
      put_store
        {| apps_t :=
             apps_t s ++
             [{| App.ID := App.ID app;
                 App.Service := App.Service app;
                 App.Password := App.Password app;
                 App.CallbackURL := App.CallbackURL app;
                 App.Expiry := App.Expiry app;
                 App.CreatedAt := Some (now env);
                 App.Status := App.Status app |}];
           exchanges_t := exchanges_t s;
           tokens_t := tokens_t s |} ;;;
      ret (App.ID app)
  end.

End apps.

(** ** Package [tokens] *)

Module tokens.

(** The row of [auth.tokens] under key [(uid, service)], as [Scan]
    fills a [Token]. *)
Definition scan (uid : Z) (service : string) (r : token_row) : Token.t :=
  {| Token.Token :=
       {| oauth2.AccessToken := k_access_token r;
          oauth2.TokenType := k_token_type r;
          oauth2.RefreshToken := k_refresh_token r;
          oauth2.Expiry := k_expiry r |};
     Token.UserID := uid;
     Token.Service := service;
     Token.CreatedAt := k_created_at r |}.

(** [SELECT ... WHERE user_id = $1 AND service = $2], shared by [Get]
    and [Refresh]; [userID] is bound as text. *)
Definition select (userID service : string) : M Token.t :=
  send (SelectToken userID service) ;;;
  env <- ask ;;
  match int4in env userID with
  | None => fail driver_error
  | Some uid =>
      s <- get_store ;;
      match tokens_t s !! (uid, service) with
      | None => fail sql_ErrNoRows
      | Some r => ret (scan uid service r)
      end
  end.

Definition Get (userID service : string) : M Token.t :=
  token <- select userID service ;;
  ret token.

(** [UPDATE auth.tokens SET access_token, refresh_token, expiry,
    created_at WHERE user_id = $1]: every row of the user. *)
Definition update_row (accessToken refreshToken : string)
    (expiry createdAt : time) (r : token_row) : token_row :=
  {| k_token_type := k_token_type r;
     k_access_token := accessToken;
     k_expiry := expiry;
     k_refresh_token := refreshToken;
     k_created_at := createdAt |}.

Definition update_user (uid : Z) (accessToken refreshToken : string)
    (expiry createdAt : time) (t : gmap (Z * string) token_row)
  : gmap (Z * string) token_row :=
  map_imap
    (fun k r =>
       Some (if bool_decide (k.1 = uid)
             then update_row accessToken refreshToken expiry createdAt r
             else r))
    t.

Definition Refresh (userID service : string) : M Token.t :=
  token <- select userID service ;;
  conf <- apps.GetConf (Token.Service token) ;;
  emit (ProviderTokenSource conf (Token.Token token)) ;;;
  env <- ask ;;
  match provider_token env conf (Token.Token token) with
  | Err e => fail e
  | Ok newToken =>
      send (UpdateTokens userID (oauth2.AccessToken newToken)
              (oauth2.RefreshToken newToken) (oauth2.Expiry newToken)
              (now env)) ;;;
      match int4in env userID with
      | None => fail driver_error
      | Some uid =>
          s <- get_store ;;
          put_store
            {| apps_t := apps_t s;
               exchanges_t := exchanges_t s;
               tokens_t :=
                 update_user uid (oauth2.AccessToken newToken)
                   (oauth2.RefreshToken newToken) (oauth2.Expiry newToken)
                   (now env) (tokens_t s) |} ;;;
          ret token
      end
  end.

(** [INSERT ... ON CONFLICT (user_id, service) DO UPDATE SET
    access_token, refresh_token, expiry, created_at]. *)
Definition upsert (row : Token.t) (t : gmap (Z * string) token_row)
  : gmap (Z * string) token_row :=
  let tk := Token.Token row in
  let key := (Token.UserID row, Token.Service row) in
  match t !! key with
  | Some old =>
      <[key :=
          {| k_token_type := k_token_type old;
             k_access_token := oauth2.AccessToken tk;
             k_expiry := oauth2.Expiry tk;
             k_refresh_token := oauth2.RefreshToken tk;
             k_created_at := Token.CreatedAt row |}]> t
  | None =>
      <[key :=
          {| k_token_type := oauth2.TokenType tk;
             k_access_token := oauth2.AccessToken tk;
             k_expiry := oauth2.Expiry tk;
             k_refresh_token := oauth2.RefreshToken tk;
             k_created_at := Token.CreatedAt row |}]> t
  end.

Definition Create (code exchangeID : string) : M Z :=
  exchange <- exchanges.Get exchangeID ;;
  conf <- apps.GetConf (Exchange.Service exchange) ;;
  emit (ProviderExchange conf code) ;;;
  env <- ask ;;
  match provider_exchange env conf code with
  | Err e => fail e
  | Ok tk =>
      discard (exchanges.Delete exchangeID) ;;;
      let row :=
        {| Token.Token := tk;
           Token.UserID := Exchange.UserID exchange;
           Token.Service := Exchange.Service exchange;
           Token.CreatedAt := now env |} in
      send (UpsertToken row) ;;;
      s <- get_store ;;
      put_store
        {| apps_t := apps_t s;
           exchanges_t := exchanges_t s;
           tokens_t := upsert row (tokens_t s) |} ;;;
      ret (Exchange.UserID exchange)
  end.

End tokens.

(** ** The operations as a transition system *)

(** A call of the HTTP layer into the models. *)
Inductive call : Type :=
| AppsCreate (app : App.t)
| AppsSetStatus (id status : string)
| AppsGetByID (id : string)
| AppsGetByService (service : string)
| AppsAuthCodeURL (service : string) (userID : Z)
| TokensGet (userID service : string)
| TokensRefresh (userID service : string)
| TokensCreate (code exchangeID : string).

(** The store a call leaves behind and the log of what it did. *)
Definition perform (c : call) (env : Env) (s : Store) : World :=
  match c with
  | AppsCreate app => snd (run (apps.Create app) env s)
  | AppsSetStatus id status => snd (run (apps.SetStatus id status) env s)
  | AppsGetByID id => snd (run (apps.GetByID id) env s)
  | AppsGetByService service => snd (run (apps.GetByService service) env s)
  | AppsAuthCodeURL service userID =>
      snd (run (apps.AuthCodeURL service userID) env s)
  | TokensGet userID service => snd (run (tokens.Get userID service) env s)
  | TokensRefresh userID service =>
      snd (run (tokens.Refresh userID service) env s)
  | TokensCreate code exchangeID =>
      snd (run (tokens.Create code exchangeID) env s)
  end.

(** A history: calls in the order they are served, each in its own
    environment. *)
Fixpoint replay (h : list (Env * call)) (s : Store) : Store :=
  match h with
  | [] => s
  | (env, c) :: h' => replay h' (store (perform c env s))
  end.

(** The statement [ev] removes the Exchange [id]: it is the [DELETE] of
    that id and the driver does not fail on it. *)
Definition removes (id : string) (env : Env) (ev : event) : bool :=
  match ev with
  | DeleteExchange i => String.eqb i id && negb (fault env ev)
  | _ => false
  end.

(** The statement [ev] is an [INSERT] of an Exchange under [id]. *)
Definition mints (id : string) (env : Env) (ev : event) : bool :=
  match ev with
  | InsertExchange ex => String.eqb (Exchange.ID ex) id
  | _ => false
  end.

(** No statement of the history satisfies [bad]. *)
Fixpoint never (bad : Env -> event -> bool) (h : list (Env * call))
    (s : Store) : Prop :=
  match h with
  | [] => True
  | (env, c) :: h' =>
      forallb (fun ev => negb (bad env ev)) (log (perform c env s)) = true
      /\ never bad h' (store (perform c env s))
  end.

(** The call [c] consumes the Exchange [id]: it is a [tokens.Create] for
    that id which gets past the grant exchange (the Exchange is found,
    the client configuration is resolved, the provider accepts the code)
    and whose [DELETE] the driver accepts. *)
Definition consumes (id : string) (env : Env) (c : call) (s : Store) : Prop :=
  exists code exchange conf tk,
    c = TokensCreate code id
    /\ fst (run (exchanges.Get id) env s) = Ok exchange
    /\ fst (run (apps.GetConf (Exchange.Service exchange)) env s) = Ok conf
    /\ provider_exchange env conf code = Ok tk
    /\ fault env (DeleteExchange id) = false.

(** No call of the history consumes the Exchange [id]. *)
Fixpoint unconsumed (id : string) (h : list (Env * call)) (s : Store)
    : Prop :=
  match h with
  | [] => True
  | (env, c) :: h' =>
      ~ consumes id env c s /\ unconsumed id h' (store (perform c env s))
  end.

(** ** Vocabulary of the properties *)

(** The characters [0-9], [a-z], [A-Z]. *)
Definition alphanumeric (c : ascii) : bool :=
  let n := N_of_ascii c in
  ((48 <=? n) && (n <=? 57) || (97 <=? n) && (n <=? 122)
   || (65 <=? n) && (n <=? 90))%N.

Definition all_alphanumeric (s : string) : Prop :=
  Forall (fun c => alphanumeric c = true) (list_ascii_of_string s).

(** The services with an entry in the provider registry (the cases of the
    [switch] in [apps.GetConf]). *)
Definition registered (service : string) : Prop :=
  service = apps.Google \/ service = apps.Yandex
  \/ service = apps.Mail \/ service = apps.VK.

(** The store holds an enabled App row for the service. *)
Definition has_enabled_app (s : Store) (service : string) : Prop :=
  exists row, In row (apps_t s)
    /\ App.Service row = service /\ App.Status row = apps.StatusEnable.

(** The string [RandomStr(n)] builds from the bytes the environment
    delivers. *)
Definition random_string (env : Env) (n : Z) : string :=
  string_of_list_byte
    (map helpers.pick (map (rand_byte env) (seq 0 (Z.to_nat n)))).

(** The row [tokens.Create] binds to its [INSERT]. *)
Definition granted_row (env : Env) (exchange : Exchange.t)
    (tk : oauth2.Token) : Token.t :=
  {| Token.Token := tk;
     Token.UserID := Exchange.UserID exchange;
     Token.Service := Exchange.Service exchange;
     Token.CreatedAt := now env |}.

(** ** Concrete stores and environments *)

Module Fixtures.

Definition app (id service status : string) : App.t :=
  {| App.ID := id; App.Service := service; App.Password := "secret";
     App.CallbackURL := "https://x/cb"; App.Expiry := None;
     App.CreatedAt := Some 5; App.Status := status |}.

(** What the provider hands out for an authorization code, and on a
    refresh. *)
Definition granted (code : string) : oauth2.Token :=
  {| oauth2.AccessToken := "at-" ++ code;
     oauth2.TokenType := "type-" ++ code;
     oauth2.RefreshToken := "rt-" ++ code;
     oauth2.Expiry := 3600 |}.

Definition rotated : oauth2.Token :=
  {| oauth2.AccessToken := "at-new";
     oauth2.TokenType := "bearer";
     oauth2.RefreshToken := "rt-new";
     oauth2.Expiry := 7200 |}.

(** Nothing fails; random bytes 0, 1, 2, ...; the clock reads 1000. *)
Definition env (failing : event -> bool) : Env :=
  {| fault := failing;
     int4in := fun s =>
       if String.eqb s "42" then Some 42
       else if String.eqb s "7" then Some 7 else None;
     now := 1000;
     rand_fails := false;
     rand_byte := fun i => default x00 (Byte.of_nat i);
     provider_exchange := fun _ code => Ok (granted code);
     provider_token := fun _ _ => Ok rotated |}.

Definition sound : Env := env (fun _ => false).

Definition delete_fails : Env :=
  env (fun ev => match ev with DeleteExchange _ => true | _ => false end).

Definition upsert_fails : Env :=
  env (fun ev => match ev with UpsertToken _ => true | _ => false end).

Definition stored (access : string) : token_row :=
  {| k_token_type := "bearer"; k_access_token := access; k_expiry := 500;
     k_refresh_token := "rt-old"; k_created_at := 100 |}.

(** Enabled apps for yandex, google, mail, vk and for a service without
    registry entry, a pending Exchange of user 42 for yandex, and tokens of
    user 42 for yandex and for google. *)
Definition store : Store :=
  {| apps_t := [app "abc" "yandex" "enable"; app "def" "google" "enable";
                app "ghi" "github" "enable"; app "jkl" "mail" "enable";
                app "mno" "vk" "enable"];
     exchanges_t := {[ "state-1" := {| x_service := "yandex"; x_user_id := 42 |} ]};
     tokens_t := {[ (42, "yandex") := stored "at-yandex";
                    (42, "google") := stored "at-google" ]} |}.

(** The same apps, nothing else. *)
Definition fresh : Store :=
  {| apps_t := apps_t store; exchanges_t := ∅; tokens_t := ∅ |}.

(** The same apps, two pending Exchanges of user 42 for yandex, no
    token yet. *)
Definition pending : Store :=
  {| apps_t := apps_t store;
     exchanges_t :=
       {[ "state-1" := {| x_service := "yandex"; x_user_id := 42 |};
          "state-2" := {| x_service := "yandex"; x_user_id := 42 |} ]};
     tokens_t := ∅ |}.

End Fixtures.

(** ** The HTTP layer: package [helpers] *)

(** A Go [int] (64 bits): the value an arithmetic result wraps to. *)
Definition wrap (z : Z) : Z := (z + 2 ^ 63) mod 2 ^ 64 - 2 ^ 63.

Definition int_max : Z := 2 ^ 63 - 1.

(** [strconv.Itoa] *)
Definition Itoa (z : Z) : string :=
  DecimalString.NilZero.string_of_int (Z.to_int z).

(** An [error] value of the HTTP layer, which renders it through
    [err.Error()]: an error of the models, a literal [errors.New], or an
    error of a library the handlers call. *)
Inductive goerror : Set :=
| of_model (e : error)
| errors_New (msg : string)
| strconv_error (input : string)      (* [strconv.Atoi] *)
| decode_error                        (* [render.Bind]: the body does not decode *)
| conform_error.                      (* [mold]: [conform.Struct] *)

(** What a handler renders. *)
Inductive payload : Type :=
| ErrorResponse (Error : goerror)
| ValidationErrorsResponse (Errors : gmap string string)
| appResponse (a : App.t)
| tokenResponse (t : Token.t)
| authCodeURLResponse (Url : oauth2.URL)
| plain (s : string).

Record Response : Type := {
  StatusCode : Z;
  Body : payload
}.

(** What a handler reads from [*http.Request]: the method, the chi URL
    parameters and the form values (both empty when absent), the role the
    context carries under [UserRoleContextKey] if it is a string, and the
    App the JSON body decodes to ([None] when it does not decode,
    [Some None] when it decodes without any field of the App). *)
Record Request : Type := {
  Method : string;
  URLParam : string -> string;
  FormValue : string -> string;
  UserRole : option string;
  Decoded : option (option App.t)
}.

(** A middleware either responds itself or calls [next]. *)
Inductive passed (A : Type) : Type :=
| Responded (resp : Response)
| Next (a : A).
Arguments Responded {A} resp.
Arguments Next {A} a.

(** [validator.FieldError], as far as [ValidateStruct] reads it. *)
Inductive kind : Set := Map | Slice | other_kind.

Record FieldError : Set := {
  Field : string;
  Tag : string;
  Param : string;
  Kind : kind
}.

(** The libraries behind the handlers: [strconv.Atoi] (value and whether
    [err != nil]), [conform.Struct] (the struct as modified, or an
    error) and [validate.StructFiltered] ([None] for a nil error). *)
Record Lib : Type := {
  Atoi : string -> Z * bool;
  conform_Struct : App.t -> App.t + goerror;
  validate_Struct : App.t -> option (list FieldError)
}.

Module http.
Definition StatusOK := 200.
Definition StatusCreated := 201.
Definition StatusBadRequest := 400.
Definition StatusUnauthorized := 401.
Definition StatusForbidden := 403.
Definition StatusNotFound := 404.
Definition StatusConflict := 409.
Definition StatusUnprocessableEntity := 422.
Definition StatusInternalServerError := 500.
Definition MethodPost := "POST".
Definition MethodPut := "PUT".
Definition MethodDelete := "DELETE".
End http.

Module render.
(** [render.Render(w, r, v)] where no status was written or set: 200. *)
Definition Render (v : payload) : Response :=
  {| StatusCode := http.StatusOK; Body := v |}.
End render.

Module httphelpers.

Definition defaultPage := 1.
Definition maxPerPage := 1000.

Definition protectedHTTPMethods : gset string :=
  {[ http.MethodPost; http.MethodPut; http.MethodDelete ]}.

Record Paginator : Set := {
  Total : Z;
  PerPage : Z;
  Page : Z
}.

Record paginateForm : Set := {
  form_Page : Z;
  form_PerPage : Z
}.

(** [NewErrorResponse(statusCode, err)] rendered: the hook sets the
    status. *)
Definition NewErrorResponse (statusCode : Z) (err : goerror) : Response :=
  {| StatusCode := statusCode; Body := ErrorResponse err |}.

Definition ValidationFailed (errs : gmap string string) : Response :=
  {| StatusCode := http.StatusUnprocessableEntity;
     Body := ValidationErrorsResponse errs |}.

Definition NotFound (err : goerror) : Response :=
  NewErrorResponse http.StatusNotFound err.

Definition Conflict (err : goerror) : Response :=
  NewErrorResponse http.StatusConflict err.

Definition BadRequest (err : goerror) : Response :=
  NewErrorResponse http.StatusBadRequest err.

Definition Unauthorized (_ : goerror) : Response :=
  NewErrorResponse http.StatusUnauthorized (errors_New "401 Unauthorized").

Definition Forbidden : Response :=
  NewErrorResponse http.StatusForbidden (errors_New "403 Forbidden").

(** [errors.New(err.Error())] has the message of [err]. *)
Definition InternalServerError (err : goerror) : Response :=
  NewErrorResponse http.StatusInternalServerError err.

(** [strings.SplitN(s, ",", 2)[0]]: the part of [s] before its first
    comma, all of [s] when it has none. *)
Fixpoint before_comma (s : string) : string :=
  match s with
  | EmptyString => EmptyString
  | String c s' =>
      if Ascii.eqb c "," then EmptyString else String c (before_comma s')
  end.

(** The function [init] registers with the validator: the name of a
    field, from the [json] tag of the field. *)
Definition TagName (json : string) : string :=
  let name := before_comma json in
  if String.eqb name "-" then "" else name.

Definition GetUserRole (r : Request) : string :=
  match UserRole r with
  | Some role => role
  | None => ""
  end.

(** [AccessController(roles...)], applied to a request. *)
Definition AccessController (roles : list string) (r : Request)
  : passed unit :=
  let roleMap : gset string := list_to_set roles in
  let role := GetUserRole r in
  let allowed :=
    if bool_decide (0 < size roleMap)%nat then
      if bool_decide (role ∈ roleMap) then true else false
    else if bool_decide (Method r ∈ protectedHTTPMethods) then
      if String.eqb role "admin" then true else false
    else true in
  if negb allowed then Responded Forbidden else Next tt.

(** The message [ValidateStruct] files under the field of one error. *)
Definition message (err : FieldError) : string :=
  let errStr :=
    if String.eqb (Tag err) "required" then "value is required"
    else if String.eqb (Tag err) "gt" then
      if String.eqb (Param err) "0" then
        match Kind err with
        | Map => "empty map specified"
        | Slice => "empty list specified"
        | other_kind => ""
        end
      else ""
    else "" in
  if String.eqb errStr "" then "invalid value" else errStr.

(** [ValidateStruct], given what [validate.StructFiltered] reports. *)
Definition ValidateStruct (vldErr : option (list FieldError))
  : option (gmap string string) :=
  match vldErr with
  | Some l =>
      Some (fold_left (fun errs err => <[Field err := message err]> errs)
              l ∅)
  | None => None
  end.

Definition decodePaginateForm (lib : Lib) (r : Request)
    (form : paginateForm) : paginateForm * option (gmap string string) :=
  let errs : gmap string string := ∅ in
  let page := FormValue r "page" in
  let '(form, errs) :=
    if negb (String.eqb page "") then
      let '(v, err) := Atoi lib page in
      let form := {| form_Page := v; form_PerPage := form_PerPage form |} in
      if err || (form_Page form <? 0)%Z
      then (form, <["page" := "invalid value specified"]> errs)
      else (form, errs)
    else (form, errs) in
  let form :=
    if (form_Page form =? 0)%Z
    then {| form_Page := defaultPage; form_PerPage := form_PerPage form |}
    else form in
  let perPage := FormValue r "per_page" in
  let '(form, errs) :=
    if negb (String.eqb perPage "") then
      let '(v, err) := Atoi lib perPage in
      let form := {| form_Page := form_Page form; form_PerPage := v |} in
      if err || (form_PerPage form <? 0)%Z
      then (form, <["per_page" := "invalid value specified"]> errs)
      else (form, errs)
    else (form, errs) in
  let form :=
    if (form_PerPage form >? 0)%Z && (form_PerPage form >? maxPerPage)%Z
    then {| form_Page := form_Page form; form_PerPage := maxPerPage |}
    else form in
  if bool_decide (0 < size errs)%nat then (form, Some errs)
  else (form, None).

(** [Paginate]: the Paginator it puts into the context of [next]. *)
Definition Paginate (lib : Lib) (r : Request) : passed Paginator :=
  let form := {| form_Page := 0; form_PerPage := 0 |} in
  match decodePaginateForm lib r form with
  | (_, Some errs) => Responded (ValidationFailed errs)
  | (form, None) =>
      Next {| Total := 0;
              PerPage := form_PerPage form;
              Page := form_Page form |}
  end.

Definition Skip (p : Paginator) : Z :=
  wrap (wrap (Page p - 1) * PerPage p).

Definition Limit (p : Paginator) : Z := PerPage p.

(** [SetHeaders]: the headers it adds, in order; the division panics on
    [PerPage = 0]. *)
Definition SetHeaders (p : Paginator) : result (list (string * string)) :=
  if (PerPage p =? 0)%Z then Err runtime_panic else
  let totalPages := wrap (Z.quot (Total p) (PerPage p)) in
  let totalPages :=
    if (Z.rem (Total p) (PerPage p) >? 0)%Z then wrap (totalPages + 1)
    else totalPages in
  let headers :=
    [("X-Total", Itoa (Total p));
     ("X-Total-Pages", Itoa totalPages);
     ("X-Per-Page", Itoa (PerPage p));
     ("X-Page", Itoa (Page p))] in
  let headers :=
    if (Page p >? 1)%Z
    then (headers ++ [("X-Prev-Page", Itoa (wrap (Page p - 1)))])%list
    else headers in
  let headers :=
    if (Page p <? totalPages)%Z
    then (headers ++ [("X-Next-Page", Itoa (wrap (Page p + 1)))])%list
    else headers in
  Ok headers.

End httphelpers.

(** ** The HTTP layer: the controllers *)

(** A handler answers a request with a response and leaves a store and a
    log of statements. A model method that returns without error returns
    a non-nil pointer, so the handlers' tests [token == nil] and
    [app == nil] after a nil error never succeed; [Config.AuthCodeURL]
    never builds the empty string, so neither does [url == ""]. *)
Definition handler : Type := Request -> Env -> Store -> Response * World.

(** Respond without calling a model. *)
Definition respond (resp : Response) (s : Store) : Response * World :=
  (resp, {| store := s; log := [] |}).

(** Package [http/contollers/tokens]. *)
Module tokens_controller.

Definition Create : handler := fun r env s =>
  let code := FormValue r "code" in
  if String.eqb code "" then
    respond (httphelpers.BadRequest (errors_New "code not specified")) s
  else
  let state := FormValue r "state" in
  if String.eqb state "" then
    respond (httphelpers.BadRequest (errors_New "state not specified")) s
  else
  match run (tokens.Create code state) env s with
  | (Err err, w) => (httphelpers.InternalServerError (of_model err), w)
  | (Ok _, w) =>
      ({| StatusCode := http.StatusCreated; Body := plain "" |}, w)
  end.

Definition Get : handler := fun r env s =>
  let userID := URLParam r "userID" in
  if String.eqb userID "" then
    respond (httphelpers.NotFound (of_model tokens_ErrNotFound)) s
  else
  let service := URLParam r "service" in
  if String.eqb service "" then
    respond (httphelpers.NotFound (of_model tokens_ErrNotFound)) s
  else
  match run (tokens.Get userID service) env s with
  | (Err err, w) => (httphelpers.InternalServerError (of_model err), w)
  | (Ok token, w) => (render.Render (tokenResponse token), w)
  end.

Definition Refresh : handler := fun r env s =>
  let userID := URLParam r "userID" in
  if String.eqb userID "" then
    respond (httphelpers.NotFound (of_model tokens_ErrNotFound)) s
  else
  let service := URLParam r "service" in
  if String.eqb service "" then
    respond (httphelpers.NotFound (of_model tokens_ErrNotFound)) s
  else
  match run (tokens.Refresh userID service) env s with
  | (Err err, w) => (httphelpers.InternalServerError (of_model err), w)
  | (Ok token, w) => (render.Render (tokenResponse token), w)
  end.

End tokens_controller.

(** Package [http/contollers/apps]. *)
Module apps_controller.

Definition with_service (service : string) (a : App.t) : App.t :=
  {| App.ID := App.ID a;
     App.Service := service;
     App.Password := App.Password a;
     App.CallbackURL := App.CallbackURL a;
     App.Expiry := App.Expiry a;
     App.CreatedAt := App.CreatedAt a;
     App.Status := App.Status a |}.

(** [render.Bind]: decode the body, then the [Bind] hook of the
    payload. *)
Definition Bind (r : Request) : App.t + goerror :=
  match Decoded r with
  | None => inr decode_error
  | Some None => inr (errors_New "missing required App field")
  | Some (Some a) => inl a
  end.

Definition Create (lib : Lib) : handler := fun r env s =>
  match Bind r with
  | inr err => respond (httphelpers.BadRequest err) s
  | inl newApp =>
  match conform_Struct lib newApp with
  | inr err => respond (httphelpers.InternalServerError err) s
  | inl newApp =>
  let service := URLParam r "service" in
  if String.eqb service "" then
    respond (httphelpers.NotFound (of_model apps_ErrNotFound)) s
  else
  let newApp := with_service service newApp in
  match httphelpers.ValidateStruct (validate_Struct lib newApp) with
  | Some errs => respond (httphelpers.ValidationFailed errs) s
  | None =>
  match run (apps.Create newApp) env s with
  | (Err apps_ErrExists, w) =>
      (httphelpers.Conflict (of_model apps_ErrExists), w)
  | (Err err, w) => (httphelpers.InternalServerError (of_model err), w)
  | (Ok id, w) =>
  match apps.GetByID id env w with
  | (Err err, w) => (httphelpers.InternalServerError (of_model err), w)
  | (Ok a, w) =>
      ({| StatusCode := http.StatusCreated; Body := appResponse a |}, w)
  end end end end end.

Definition SetStatus : handler := fun r env s =>
  let appID := URLParam r "appID" in
  if String.eqb appID "" then
    respond (httphelpers.NotFound (of_model apps_ErrNotFound)) s
  else
  let status := URLParam r "status" in
  if String.eqb status "" then
    respond (httphelpers.NotFound (of_model apps_ErrNotFound)) s
  else
  match run (apps.SetStatus appID status) env s with
  | (Err apps_ErrExists, w) =>
      (httphelpers.Conflict (of_model apps_ErrExists), w)
  | (Err err, w) => (httphelpers.InternalServerError (of_model err), w)
  | (Ok a, w) =>
      ({| StatusCode := http.StatusOK; Body := appResponse a |}, w)
  end.

Definition Get : handler := fun r env s =>
  let service := URLParam r "service" in
  if String.eqb service "" then
    respond (httphelpers.NotFound (of_model apps_ErrNotFound)) s
  else
  match run (apps.GetByService service) env s with
  | (Err err, w) => (httphelpers.InternalServerError (of_model err), w)
  | (Ok a, w) => (render.Render (appResponse a), w)
  end.

Definition AuthCodeURL (lib : Lib) : handler := fun r env s =>
  let service := URLParam r "service" in
  if String.eqb service "" then
    respond (httphelpers.NotFound (of_model apps_ErrNotFound)) s
  else
  let '(userID, err) := Atoi lib (URLParam r "userID") in
  if err then
    respond (httphelpers.BadRequest (strconv_error (URLParam r "userID"))) s
  else
  match run (apps.AuthCodeURL service userID) env s with
  | (Err err, w) => (httphelpers.InternalServerError (of_model err), w)
  | (Ok url, w) => (render.Render (authCodeURLResponse url), w)
  end.

End apps_controller.

(** ** Further scenarios *)

Module Scenario.

(** The provider rejects every authorization code. *)
Definition provider_rejects : Env :=
  {| fault := fun _ => false;
     int4in := int4in Fixtures.sound;
     now := 1000;
     rand_fails := false;
     rand_byte := rand_byte Fixtures.sound;
     provider_exchange := fun _ _ => Err provider_error;
     provider_token := fun _ _ => Err provider_error |}.

(** The driver rejects the [UPDATE] of [auth.tokens]. *)
Definition update_fails : Env :=
  Fixtures.env
    (fun ev => match ev with UpdateTokens _ _ _ _ _ => true | _ => false end).


(** [strconv.Atoi] on the few texts the scenarios use, [conform] and the
    validator finding nothing to change or to report. *)
Definition lib : Lib :=
  {| Atoi := fun s =>
       if String.eqb s "42" then (42, false)
       else if String.eqb s "3" then (3, false)
       else if String.eqb s "0" then (0, false)
       else if String.eqb s "5000" then (5000, false)
       else if String.eqb s "-1" then (-1, false)
       else (0, true);
     conform_Struct := inl;
     validate_Struct := fun _ => None |}.

Definition value (l : list (string * string)) (key : string) : string :=
  match find (fun kv => String.eqb (fst kv) key) l with
  | Some kv => snd kv
  | None => ""
  end.

(** A GET request with the given URL parameters and form values. *)
Definition request (params form : list (string * string)) : Request :=
  {| Method := "GET"; URLParam := value params; FormValue := value form;
     UserRole := None; Decoded := None |}.

(** A POST request carrying an App. *)
Definition post (params : list (string * string)) (a : App.t) : Request :=
  {| Method := "POST"; URLParam := value params; FormValue := value [];
     UserRole := None; Decoded := Some (Some a) |}.

End Scenario.

(** * Properties *)

(** ** Reasoning about the monad *)

Lemma send_eq ev env w :
  send ev env w =
  (if fault env ev then Err driver_error else Ok tt,
   {| store := store w; log := log w ++ [ev] |}).
Proof. unfold send, bind, emit, ask, fail, ret. simpl. by destruct (fault env ev). Qed.

Lemma bind_eq {A B} (m : M A) (k : A -> M B) env w :
  bind m k env w =
  match m env w with
  | (Ok a, w') => k a env w'
  | (Err e, w') => (Err e, w')
  end.
Proof. reflexivity. Qed.

(** ** [helpers.RandomStr] *)

Lemma chars_62 : length helpers.chars = 62%nat /\ NoDup helpers.chars.
Proof.
  split; [reflexivity|].
  apply (NoDup_fmap_1 Byte.to_nat).
  apply (bool_decide_unpack _). vm_compute. reflexivity.
Qed.

Lemma pick_alphanumeric b : alphanumeric (ascii_of_byte (helpers.pick b)) = true.
Proof. destruct b; vm_compute; reflexivity. Qed.

Lemma string_of_list_byte_length l :
  String.length (string_of_list_byte l) = length l.
Proof.
  induction l as [|b l IH]; [reflexivity|].
  change (string_of_list_byte (b :: l))
    with (String (ascii_of_byte b) (string_of_list_byte l)).
  simpl. by rewrite IH.
Qed.

Lemma string_of_list_byte_ascii l :
  list_ascii_of_string (string_of_list_byte l) = map ascii_of_byte l.
Proof.
  induction l as [|b l IH]; [reflexivity|].
  change (string_of_list_byte (b :: l))
    with (String (ascii_of_byte b) (string_of_list_byte l)).
  simpl. by rewrite IH.
Qed.

Lemma RandomStr_eq n env w :
  0 <= n ->
  helpers.RandomStr n env w =
  (if rand_fails env then Err rand_error else Ok (random_string env n),
   {| store := store w; log := log w ++ [RandRead n] |}).
Proof.
  intros Hn. unfold helpers.RandomStr.
  destruct (Z.ltb_spec n 0) as [?|_]; [lia|].
  unfold bind, emit, ask, fail, ret; simpl.
  by destruct (rand_fails env).
Qed.

Lemma picked_string (l : list byte) :
  let s := string_of_list_byte (map helpers.pick l) in
  String.length s = length l /\ all_alphanumeric s.
Proof.
  simpl. split.
  - by rewrite string_of_list_byte_length, length_map.
  - unfold all_alphanumeric. rewrite string_of_list_byte_ascii.
    apply Forall_forall. intros c Hc.
    apply list_elem_of_In, in_map_iff in Hc as (b & <- & Hb).
    apply in_map_iff in Hb as (b0 & <- & _). apply pick_alphanumeric.
Qed.

(** ** Lookups leave the store alone *)

Lemma exchanges_Get_eq id env w :
  exchanges.Get id env w =
  (if fault env (SelectExchange id) then Err driver_error
   else match exchanges_t (store w) !! id with
        | None => Err sql_ErrNoRows
        | Some r =>
            Ok {| Exchange.ID := id;
                  Exchange.Service := x_service r;
                  Exchange.UserID := x_user_id r |}
        end,
   {| store := store w; log := log w ++ [SelectExchange id] |}).
Proof.
  unfold exchanges.Get. rewrite bind_eq, send_eq.
  destruct (fault env (SelectExchange id)); [done|].
  unfold bind, get_store, fail, ret; simpl.
  by destruct (exchanges_t (store w) !! id).
Qed.

Lemma GetConf_frame service env w :
  apps.GetConf service env w =
  (fst (run (apps.GetConf service) env (store w)),
   {| store := store w;
      log := log w ++ [SelectAppByService service apps.StatusEnable] |}).
Proof.
  unfold run, apps.GetConf. rewrite !bind_eq, !send_eq.
  destruct (fault env _); [done|].
  unfold bind, get_store, fail, ret; simpl.
  destruct (find _ _); [|done].
  repeat (destruct (String.eqb _ _); [done|]). done.
Qed.

Lemma tokens_select_frame userID service env w :
  tokens.select userID service env w =
  (fst (run (tokens.select userID service) env (store w)),
   {| store := store w; log := log w ++ [SelectToken userID service] |}).
Proof.
  unfold run, tokens.select. rewrite !bind_eq, !send_eq.
  destruct (fault env _); [done|].
  unfold bind, ask, get_store, fail, ret; simpl.
  destruct (int4in env userID) as [uid|]; [|done]. cbn [store].
  by destruct (tokens_t (store w) !! (uid, service)).
Qed.

(** ** [apps.GetConf] *)

Lemma find_enabled_app s service :
  has_enabled_app s service <->
  exists row, find (apps.by_service service apps.StatusEnable) (apps_t s) = Some row.
Proof.
  unfold has_enabled_app, apps.by_service. split.
  - intros (row & Hin & Hsvc & Hst).
    destruct (find _ (apps_t s)) as [r|] eqn:Hf; [by exists r|].
    apply (find_none _ _ Hf) in Hin.
    rewrite Hsvc, Hst, !String.eqb_refl in Hin. done.
  - intros (row & Hf). apply find_some in Hf as [Hin Hb].
    apply andb_true_iff in Hb as [H1 H2].
    apply String.eqb_eq in H1, H2. by exists row.
Qed.

Lemma find_by_service_Service service status l row :
  find (apps.by_service service status) l = Some row -> App.Service row = service.
Proof.
  intros Hf. apply find_some in Hf as [_ Hb]. unfold apps.by_service in Hb.
  apply andb_true_iff in Hb as [H1 _]. by apply String.eqb_eq.
Qed.

Lemma GetConf_no_app env s service :
  fault env (SelectAppByService service apps.StatusEnable) = false ->
  ~ has_enabled_app s service ->
  fst (run (apps.GetConf service) env s) = Err sql_ErrNoRows.
Proof.
  intros Hok Hno. unfold run, apps.GetConf.
  rewrite bind_eq, send_eq, Hok. unfold bind, get_store, fail; simpl.
  destruct (find _ _) as [row|] eqn:Hf; [|done].
  exfalso. apply Hno, find_enabled_app. by exists row.
Qed.

Lemma GetConf_found env s service row :
  fault env (SelectAppByService service apps.StatusEnable) = false ->
  find (apps.by_service service apps.StatusEnable) (apps_t s) = Some row ->
  fst (run (apps.GetConf service) env s) =
  let conf e :=
    {| oauth2.ClientID := App.ID row;
       oauth2.ClientSecret := App.Password row;
       oauth2.Endpoint := e;
       oauth2.RedirectURL := App.CallbackURL row;
       oauth2.Scopes := apps.scopes_at service |} in
  if String.eqb service apps.Yandex then Ok (conf oauth2.yandex_Endpoint)
  else if String.eqb service apps.Google then Ok (conf oauth2.google_Endpoint)
  else if String.eqb service apps.Mail then Ok (conf oauth2.mailru_Endpoint)
  else if String.eqb service apps.VK then Ok (conf oauth2.vk_Endpoint)
  else Err apps_ErrService.
Proof.
  intros Hok Hf. unfold run, apps.GetConf.
  rewrite bind_eq, send_eq, Hok. unfold bind, get_store, fail, ret; simpl.
  rewrite Hf. simpl. rewrite (find_by_service_Service _ _ _ _ Hf).
  repeat (destruct (String.eqb _ _); [done|]). done.
Qed.

Lemma scopes_table k :
  is_Some (apps.scopes !! k) <-> k = apps.Yandex \/ k = apps.Google.
Proof.
  unfold apps.scopes. rewrite !lookup_insert, lookup_empty.
  destruct (decide (apps.Yandex = k)) as [<-|Hy].
  { split; [by left | by eexists]. }
  destruct (decide (apps.Google = k)) as [<-|Hg].
  { split; [by right | by eexists]. }
  split; [by intros [? ?] | by intros [->| ->]].
Qed.

(** C5. For a service that is none of google, yandex, mail, vk,
    [GetConf] fails with [ErrService] (service unsupported) whenever an
    enabled App row exists for it, and with [sql.ErrNoRows] (not found)
    when none exists; the two errors differ. The lookup is assumed to
    reach the database. *)
Theorem GetConf_unregistered_service env s service :
  ~ registered service ->
  fault env (SelectAppByService service apps.StatusEnable) = false ->
  (has_enabled_app s service ->
   run (apps.GetConf service) env s =
   (Err apps_ErrService,
    {| store := s; log := [SelectAppByService service apps.StatusEnable] |}))
  /\ (~ has_enabled_app s service ->
      fst (run (apps.GetConf service) env s) = Err sql_ErrNoRows)
  /\ apps_ErrService <> sql_ErrNoRows.
Proof.
  intros Hun Hok. split; [|split]; [| by apply GetConf_no_app | done].
  intros Happ. apply find_enabled_app in Happ as [row Hf].
  unfold run at 1. rewrite GetConf_frame. simpl. f_equal.
  rewrite (GetConf_found _ _ _ _ Hok Hf). simpl.
  unfold registered in Hun.
  destruct (String.eqb_spec service apps.Yandex); [tauto|].
  destruct (String.eqb_spec service apps.Google); [tauto|].
  destruct (String.eqb_spec service apps.Mail); [tauto|].
  destruct (String.eqb_spec service apps.VK); [tauto|]. done.
Qed.

Lemma GetConf_unregistered_service_witness :
  run (apps.GetConf "github") Fixtures.sound Fixtures.store =
  (Err apps_ErrService,
   {| store := Fixtures.store;
      log := [SelectAppByService "github" "enable"] |})
  /\ fst (run (apps.GetConf "gitlab") Fixtures.sound Fixtures.store)
     = Err sql_ErrNoRows.
Proof.
  assert (Hgh : ~ registered "github")
    by (unfold registered; intros [H|[H|[H|H]]]; discriminate H).
  assert (Hgl : ~ registered "gitlab")
    by (unfold registered; intros [H|[H|[H|H]]]; discriminate H).
  split.
  - apply (GetConf_unregistered_service Fixtures.sound Fixtures.store "github" Hgh);
      [reflexivity|].
    exists (Fixtures.app "ghi" "github" "enable"). simpl. tauto.
  - apply (GetConf_unregistered_service Fixtures.sound Fixtures.store "gitlab" Hgl);
      [reflexivity|].
    intros (row & Hin & Hsvc & _). simpl in Hin.
    repeat (destruct Hin as [<-|Hin]; [discriminate Hsvc|]). done.
Defined.

(** C10. For the supported services mail and vk, [GetConf] with an
    enabled App row returns a configuration whose scope list is empty
    while its endpoint is the provider's: the scope table has entries for
    yandex and google only. *)
Theorem GetConf_mail_vk_without_scopes env s service :
  service = apps.Mail \/ service = apps.VK ->
  fault env (SelectAppByService service apps.StatusEnable) = false ->
  has_enabled_app s service ->
  (exists conf,
     fst (run (apps.GetConf service) env s) = Ok conf
     /\ oauth2.Scopes conf = []
     /\ oauth2.Endpoint conf =
        (if String.eqb service apps.Mail
         then oauth2.mailru_Endpoint else oauth2.vk_Endpoint)
     /\ oauth2.Endpoint conf <> oauth2.zero_Endpoint)
  /\ (forall k, is_Some (apps.scopes !! k) <-> k = apps.Yandex \/ k = apps.Google).
Proof.
  intros Hsvc Hok Happ. split; [|apply scopes_table].
  apply find_enabled_app in Happ as [row Hf].
  rewrite (GetConf_found _ _ _ _ Hok Hf).
  destruct Hsvc as [-> | ->]; simpl; eexists; (split; [reflexivity|]); simpl;
    repeat split; done.
Qed.

Lemma GetConf_mail_vk_without_scopes_witness :
  exists conf,
    fst (run (apps.GetConf "vk") Fixtures.sound Fixtures.store) = Ok conf
    /\ oauth2.Scopes conf = []
    /\ oauth2.Endpoint conf = oauth2.vk_Endpoint.
Proof.
  destruct (GetConf_mail_vk_without_scopes Fixtures.sound Fixtures.store "vk")
    as [(conf & Hrun & Hsc & Hep & _) _].
  - right; reflexivity.
  - reflexivity.
  - exists (Fixtures.app "mno" "vk" "enable"). simpl. tauto.
  - exists conf. auto.
Defined.

Lemma random_string_spec env n :
  String.length (random_string env n) = Z.to_nat n
  /\ all_alphanumeric (random_string env n).
Proof.
  unfold random_string.
  destruct (picked_string (map (rand_byte env) (seq 0 (Z.to_nat n)))) as [Hl Ha].
  split; [|done]. by rewrite Hl, length_map, length_seq.
Qed.

(** ** [apps.AuthCodeURL] *)

Lemma exchanges_Create_eq ex env w :
  exchanges.Create ex env w =
  if fault env (InsertExchange ex) then
    (Err driver_error,
     {| store := store w; log := log w ++ [InsertExchange ex] |})
  else
    match exchanges_t (store w) !! Exchange.ID ex with
    | Some _ =>
        (Err unique_violation,
         {| store := store w; log := log w ++ [InsertExchange ex] |})
    | None =>
        (Ok (Exchange.ID ex),
         {| store :=
              {| apps_t := apps_t (store w);
                 exchanges_t :=
                   <[Exchange.ID ex :=
                       {| x_service := Exchange.Service ex;
                          x_user_id := Exchange.UserID ex |}]>
                     (exchanges_t (store w));
                 tokens_t := tokens_t (store w) |};
            log := log w ++ [InsertExchange ex] |})
    end.
Proof.
  unfold exchanges.Create. rewrite bind_eq, send_eq.
  destruct (fault env (InsertExchange ex)); [done|].
  unfold bind, get_store, put_store, fail, ret; cbn [store log].
  by destruct (exchanges_t (store w) !! Exchange.ID ex).
Qed.

Lemma AuthCodeURL_eq service userID env s :
  run (apps.AuthCodeURL service userID) env s =
  let q := SelectAppByService service apps.StatusEnable in
  match fst (run (apps.GetConf service) env s) with
  | Err e => (Err e, {| store := s; log := [q] |})
  | Ok conf =>
      if rand_fails env then
        (Err rand_error, {| store := s; log := [q; RandRead 32] |})
      else
        let ex := {| Exchange.ID := random_string env 32;
                     Exchange.Service := service;
                     Exchange.UserID := userID |} in
        let l := [q; RandRead 32; InsertExchange ex] in
        if fault env (InsertExchange ex) then
          (Err driver_error, {| store := s; log := l |})
        else
          match exchanges_t s !! random_string env 32 with
          | Some _ => (Err unique_violation, {| store := s; log := l |})
          | None =>
              (Ok (oauth2.AuthCodeURL conf (random_string env 32)),
               {| store :=
                    {| apps_t := apps_t s;
                       exchanges_t :=
                         <[random_string env 32 :=
                             {| x_service := service; x_user_id := userID |}]>
                           (exchanges_t s);
                       tokens_t := tokens_t s |};
                  log := l |})
          end
  end.
Proof.
  unfold run at 1, apps.AuthCodeURL. rewrite bind_eq, GetConf_frame.
  cbn [store log app]. destruct (fst (run (apps.GetConf service) env s)); [|done].
  rewrite bind_eq, RandomStr_eq by lia. cbn [store log app].
  destruct (rand_fails env); [done|].
  rewrite bind_eq, exchanges_Create_eq. cbn [store log app Exchange.ID
    Exchange.Service Exchange.UserID].
  destruct (fault env _); [done|].
  by destruct (exchanges_t s !! random_string env 32).
Qed.

Lemma AuthCodeURL_inserts env st service userID ex :
  In (InsertExchange ex)
     (log (snd (run (apps.AuthCodeURL service userID) env st))) ->
  ex = {| Exchange.ID := random_string env 32;
          Exchange.Service := service;
          Exchange.UserID := userID |}.
Proof.
  rewrite AuthCodeURL_eq. cbn zeta.
  destruct (fst (run (apps.GetConf service) env st)) as [conf|e].
  2: { simpl. intros [Hq|[]]. discriminate Hq. }
  destruct (rand_fails env).
  { simpl. intros [Hq|[Hq|[]]]; discriminate Hq. }
  assert (Hin : forall x,
    In (InsertExchange ex)
       [SelectAppByService service apps.StatusEnable; RandRead 32;
        InsertExchange x] -> ex = x).
  { intros x [Hq|[Hq|[Hq|[]]]]; try discriminate Hq. by injection Hq. }
  destruct (fault env _); [apply Hin|].
  destruct (exchanges_t st !! random_string env 32); apply Hin.
Qed.

(** C9. [RandomStr(n)], for every [n >= 0] and whatever bytes the random
    source delivers, returns a string of [n] characters of the alphabet
    [0-9a-zA-Z], which has 62 distinct characters. Every successful
    [AuthCodeURL] mints one identifier: it is the state of the URL it
    returns, the Exchange of the request is inserted and stored under it,
    and it has 32 characters of that alphabet; no call of [AuthCodeURL]
    inserts an Exchange under any other kind of identifier. *)
Theorem RandomStr_alphanumeric env n :
  0 <= n ->
  (rand_fails env = false ->
   forall w, exists s,
     helpers.RandomStr n env w =
     (Ok s, {| store := store w; log := log w ++ [RandRead n] |}))
  /\ (forall w s w',
        helpers.RandomStr n env w = (Ok s, w') ->
        String.length s = Z.to_nat n /\ all_alphanumeric s)
  /\ (forall st service userID url w,
        run (apps.AuthCodeURL service userID) env st = (Ok url, w) ->
        exists conf id,
          url = oauth2.AuthCodeURL conf id
          /\ fst (helpers.RandomStr 32 env
                    {| store := st;
                       log := [SelectAppByService service
                                 apps.StatusEnable] |}) = Ok id
          /\ log w = [SelectAppByService service apps.StatusEnable;
                      RandRead 32;
                      InsertExchange {| Exchange.ID := id;
                                        Exchange.Service := service;
                                        Exchange.UserID := userID |}]
          /\ exchanges_t st !! id = None
          /\ exchanges_t (store w) !! id
             = Some {| x_service := service; x_user_id := userID |}
          /\ String.length id = 32%nat
          /\ all_alphanumeric id)
  /\ (forall st service userID ex,
        In (InsertExchange ex)
           (log (snd (run (apps.AuthCodeURL service userID) env st))) ->
        String.length (Exchange.ID ex) = 32%nat
        /\ all_alphanumeric (Exchange.ID ex))
  /\ length helpers.chars = 62%nat
  /\ NoDup helpers.chars
  /\ Forall (fun b => alphanumeric (ascii_of_byte b) = true) helpers.chars.
Proof.
  intros Hn. split; [|split; [|split; [|split; [|split; [|split]]]]].
  - intros Hr w. rewrite RandomStr_eq, Hr by done. by eexists.
  - intros w s w' Hrun. rewrite RandomStr_eq in Hrun by done.
    destruct (rand_fails env); [done|].
    injection Hrun as <- _. apply random_string_spec.
  - intros st service userID url w Hrun.
    rewrite AuthCodeURL_eq in Hrun. cbn zeta in Hrun.
    destruct (fst (run (apps.GetConf service) env st)) as [conf|]; [|done].
    destruct (rand_fails env) eqn:Hr; [done|].
    destruct (fault env (InsertExchange _)); [done|].
    destruct (exchanges_t st !! random_string env 32) eqn:Hfree; [done|].
    injection Hrun as <- <-. exists conf, (random_string env 32).
    split; [done|]. split; [by rewrite RandomStr_eq, Hr by lia|].
    split; [done|]. split; [done|].
    cbn [store exchanges_t]. split; [apply lookup_insert_eq|].
    apply (random_string_spec env 32).
  - intros st service userID ex Hin.
    apply AuthCodeURL_inserts in Hin as ->.
    apply (random_string_spec env 32).
  - apply chars_62.
  - apply chars_62.
  - apply (bool_decide_unpack _). vm_compute. reflexivity.
Qed.

Lemma RandomStr_alphanumeric_witness :
  (helpers.RandomStr 3 Fixtures.sound {| store := Fixtures.fresh; log := [] |}
   = (Ok "012", {| store := Fixtures.fresh; log := [RandRead 3] |})
   /\ String.length "012" = 3%nat /\ all_alphanumeric "012")
  /\ exists conf id,
       fst (run (apps.AuthCodeURL "yandex" 42) Fixtures.sound Fixtures.fresh)
       = Ok (oauth2.AuthCodeURL conf id)
       /\ exchanges_t
            (store (snd (run (apps.AuthCodeURL "yandex" 42) Fixtures.sound
                           Fixtures.fresh))) !! id
          = Some {| x_service := "yandex"; x_user_id := 42 |}
       /\ String.length id = 32%nat.
Proof.
  assert (H0 : 0 <= 3) by lia.
  destruct (RandomStr_alphanumeric Fixtures.sound 3 H0)
    as (_ & H & Hurl & _).
  split.
  - split; [reflexivity|].
    apply (H {| store := Fixtures.fresh; log := [] |} "012"
             {| store := Fixtures.fresh; log := [RandRead 3] |}).
    reflexivity.
  - pose (w := snd (run (apps.AuthCodeURL "yandex" 42) Fixtures.sound
                      Fixtures.fresh)).
    pose (url := oauth2.AuthCodeURL
                   {| oauth2.ClientID := "abc"; oauth2.ClientSecret := "secret";
                      oauth2.Endpoint := oauth2.yandex_Endpoint;
                      oauth2.RedirectURL := "https://x/cb";
                      oauth2.Scopes := ["mail:imap_ro"] |}
                   "0123456789abcdefghijklmnopqrstuv").
    assert (Hrun : run (apps.AuthCodeURL "yandex" 42) Fixtures.sound
                     Fixtures.fresh = (Ok url, w)) by reflexivity.
    destruct (Hurl Fixtures.fresh "yandex" 42 url w Hrun)
      as (conf & id & Hu & _ & _ & _ & Hx & Hl & _).
    exists conf, id. split; [rewrite Hrun; cbn [fst]; f_equal; exact Hu|].
    split; [exact Hx | exact Hl].
Defined.

(** ** [apps.SetStatus] *)

Lemma SetStatus_invalid_status env s id status :
  status <> apps.StatusEnable -> status <> apps.StatusDisable ->
  run (apps.SetStatus id status) env s =
  (Err apps_ErrStatus, {| store := s; log := [] |}).
Proof.
  intros He Hd. unfold run, apps.SetStatus.
  destruct (String.eqb_spec status apps.StatusDisable); [done|].
  destruct (String.eqb_spec status apps.StatusEnable); [done|].
  reflexivity.
Qed.

Lemma SetStatus_fails env s id status :
  exists e, fst (run (apps.SetStatus id status) env s) = Err e.
Proof.
  unfold run, apps.SetStatus.
  destruct (negb _ && negb _); [by eexists|].
  rewrite bind_eq, send_eq. destruct (fault env _); [by eexists|].
  by eexists.
Qed.

(** C8. With a status outside enable/disable [SetStatus] fails with
    [ErrStatus] before any statement is sent. With a valid status and the
    id of a stored App it does not return the App: the [UPDATE] is
    applied, and the call fails with [sql.ErrNoRows], as every call of
    [SetStatus] that reaches the database does. *)
Theorem SetStatus_never_returns_the_app :
  (forall env s id status,
     exists e, fst (run (apps.SetStatus id status) env s) = Err e)
  /\ In (Fixtures.app "abc" "yandex" "enable") (apps_t Fixtures.store)
  /\ run (apps.SetStatus "abc" "disable") Fixtures.sound Fixtures.store =
     (Err sql_ErrNoRows,
      {| store :=
           {| apps_t :=
                Fixtures.app "abc" "yandex" "disable"
                  :: tail (apps_t Fixtures.store);
              exchanges_t := exchanges_t Fixtures.store;
              tokens_t := tokens_t Fixtures.store |};
         log := [UpdateAppStatus "abc" "disable"] |})
  /\ run (apps.SetStatus "abc" "paused") Fixtures.sound Fixtures.store =
     (Err apps_ErrStatus, {| store := Fixtures.store; log := [] |}).
Proof.
  split; [apply SetStatus_fails|].
  split; [by left|]. split; reflexivity.
Qed.

(** ** [tokens.Refresh] *)

Lemma tokens_select_eq userID service env s :
  fst (run (tokens.select userID service) env s) =
  if fault env (SelectToken userID service) then Err driver_error
  else match int4in env userID with
       | None => Err driver_error
       | Some uid =>
           match tokens_t s !! (uid, service) with
           | None => Err sql_ErrNoRows
           | Some r => Ok (tokens.scan uid service r)
           end
       end.
Proof.
  unfold run, tokens.select. rewrite bind_eq, send_eq.
  destruct (fault env _); [done|].
  unfold bind, ask, get_store, fail, ret; simpl.
  destruct (int4in env userID) as [uid|]; [|done]. cbn [store].
  by destruct (tokens_t s !! (uid, service)).
Qed.

Lemma Refresh_eq userID service env s :
  run (tokens.Refresh userID service) env s =
  let q1 := SelectToken userID service in
  match fst (run (tokens.select userID service) env s) with
  | Err e => (Err e, {| store := s; log := [q1] |})
  | Ok token =>
      let q2 := SelectAppByService (Token.Service token) apps.StatusEnable in
      match fst (run (apps.GetConf (Token.Service token)) env s) with
      | Err e => (Err e, {| store := s; log := [q1; q2] |})
      | Ok conf =>
          let c := ProviderTokenSource conf (Token.Token token) in
          match provider_token env conf (Token.Token token) with
          | Err e => (Err e, {| store := s; log := [q1; q2; c] |})
          | Ok newToken =>
              let u := UpdateTokens userID (oauth2.AccessToken newToken)
                         (oauth2.RefreshToken newToken)
                         (oauth2.Expiry newToken) (now env) in
              if fault env u then
                (Err driver_error, {| store := s; log := [q1; q2; c; u] |})
              else
                match int4in env userID with
                | None =>
                    (Err driver_error,
                     {| store := s; log := [q1; q2; c; u] |})
                | Some uid =>
                    (Ok token,
                     {| store :=
                          {| apps_t := apps_t s;
                             exchanges_t := exchanges_t s;
                             tokens_t :=
                               tokens.update_user uid
                                 (oauth2.AccessToken newToken)
                                 (oauth2.RefreshToken newToken)
                                 (oauth2.Expiry newToken) (now env)
                                 (tokens_t s) |};
                        log := [q1; q2; c; u] |})
                end
          end
      end
  end.
Proof.
  unfold run at 1, tokens.Refresh. rewrite bind_eq, tokens_select_frame.
  cbn [store log app].
  destruct (fst (run (tokens.select userID service) env s)) as [token|e]; [|done].
  rewrite bind_eq, GetConf_frame. cbn [store log app].
  destruct (fst (run (apps.GetConf (Token.Service token)) env s)) as [conf|e];
    [|done].
  unfold bind at 1, emit at 1. unfold bind at 1, ask at 1. cbn [store log app].
  destruct (provider_token env conf (Token.Token token)) as [newToken|e]; [|done].
  rewrite bind_eq, send_eq. cbn [store log app].
  destruct (fault env _); [done|].
  destruct (int4in env userID) as [uid|]; done.
Qed.

Lemma update_user_lookup (uid : Z) (a r : string) (e c : time)
    (t : gmap (Z * string) token_row) (k : Z * string) :
  tokens.update_user uid a r e c t !! k =
  (fun row => if bool_decide (k.1 = uid) then tokens.update_row a r e c row
              else row) <$> t !! k.
Proof.
  unfold tokens.update_user. rewrite map_lookup_imap.
  by destruct (t !! k).
Qed.

(** C6 as stated fails: the user id is bound as text to an integer
    column, so for a text that is no integer, for which no Token row can
    be stored, [Refresh] fails with the driver's error, not with
    [sql.ErrNoRows], on a database that answers. *)
Lemma Refresh_non_integer_user :
  int4in Fixtures.sound "abc" = None
  /\ (forall uid, int4in Fixtures.sound "abc" = Some uid ->
                  tokens_t Fixtures.store !! (uid, "yandex") = None)
  /\ fault Fixtures.sound (SelectToken "abc" "yandex") = false
  /\ run (tokens.Refresh "abc" "yandex") Fixtures.sound Fixtures.store
     = (Err driver_error,
        {| store := Fixtures.store; log := [SelectToken "abc" "yandex"] |})
  /\ driver_error <> sql_ErrNoRows.
Proof. repeat split; try reflexivity; discriminate. Qed.

(** C6, amended. For every [(userID, service)] with no stored Token row,
    whatever text [userID] is, [Refresh] fails after its first
    statement: the only thing it does is the [SELECT] on [auth.tokens]
    (no client configuration is resolved, the provider is not called,
    nothing is written). When that lookup reaches the database, the
    error is [sql.ErrNoRows] (not found) if [userID] is the text of an
    integer, and the driver's error if it is not. *)
Theorem Refresh_without_token env s userID service :
  (forall uid, int4in env userID = Some uid ->
               tokens_t s !! (uid, service) = None) ->
  snd (run (tokens.Refresh userID service) env s) =
    {| store := s; log := [SelectToken userID service] |}
  /\ (exists e, fst (run (tokens.Refresh userID service) env s) = Err e)
  /\ (fault env (SelectToken userID service) = false ->
      fst (run (tokens.Refresh userID service) env s)
      = Err (match int4in env userID with
             | Some _ => sql_ErrNoRows
             | None => driver_error
             end)).
Proof.
  intros Hno. rewrite Refresh_eq, tokens_select_eq. cbn zeta.
  destruct (fault env _); simpl.
  { split; [done|]. split; [by eexists | done]. }
  destruct (int4in env userID) as [uid|]; simpl.
  - rewrite (Hno uid eq_refl). simpl.
    split; [done|]. split; [by eexists | done].
  - split; [done|]. split; [by eexists | done].
Qed.

Lemma Refresh_without_token_witness :
  run (tokens.Refresh "7" "yandex") Fixtures.sound Fixtures.store
  = (Err sql_ErrNoRows,
     {| store := Fixtures.store; log := [SelectToken "7" "yandex"] |})
  /\ snd (run (tokens.Refresh "abc" "yandex") Fixtures.sound Fixtures.store)
     = {| store := Fixtures.store; log := [SelectToken "abc" "yandex"] |}.
Proof.
  split.
  - destruct (Refresh_without_token Fixtures.sound Fixtures.store "7" "yandex")
      as (Hw & _ & He).
    { intros uid [= <-]. reflexivity. }
    rewrite (surjective_pairing (run _ _ _)), Hw, He; reflexivity.
  - destruct (Refresh_without_token Fixtures.sound Fixtures.store "abc"
                "yandex") as (Hw & _).
    { intros uid Hid. discriminate Hid. }
    exact Hw.
Defined.

(** C7. When [Refresh] succeeds, the Token it returns is the record read
    from the store in step 1 (access token, refresh token, expiry and
    createdAt as stored before the call), while the row it leaves in the
    store carries the material the provider just returned and
    [createdAt = now]. *)
Theorem Refresh_returns_previous_token env s userID service token w :
  run (tokens.Refresh userID service) env s = (Ok token, w) ->
  exists uid r conf newToken,
    int4in env userID = Some uid
    /\ tokens_t s !! (uid, service) = Some r
    /\ token = tokens.scan uid service r
    /\ oauth2.AccessToken (Token.Token token) = k_access_token r
    /\ oauth2.RefreshToken (Token.Token token) = k_refresh_token r
    /\ oauth2.Expiry (Token.Token token) = k_expiry r
    /\ Token.CreatedAt token = k_created_at r
    /\ fst (run (apps.GetConf service) env s) = Ok conf
    /\ provider_token env conf (Token.Token token) = Ok newToken
    /\ tokens_t (store w) !! (uid, service) =
       Some {| k_token_type := k_token_type r;
               k_access_token := oauth2.AccessToken newToken;
               k_expiry := oauth2.Expiry newToken;
               k_refresh_token := oauth2.RefreshToken newToken;
               k_created_at := now env |}.
Proof.
  rewrite Refresh_eq, tokens_select_eq. cbn zeta.
  destruct (fault env (SelectToken userID service)); [done|].
  destruct (int4in env userID) as [uid|]; [|done].
  destruct (tokens_t s !! (uid, service)) as [r|] eqn:Hr; [|done].
  cbn [Token.Service tokens.scan].
  destruct (fst (run (apps.GetConf service) env s)) as [conf|] eqn:Hc; [|done].
  destruct (provider_token env conf _) as [newToken|] eqn:Hp; [|done].
  destruct (fault env _); [done|].
  intros [= <- <-]. exists uid, r, conf, newToken.
  repeat split; try done. cbn [store tokens_t].
  rewrite update_user_lookup, Hr. simpl.
  by rewrite bool_decide_eq_true_2.
Qed.

Lemma Refresh_returns_previous_token_witness :
  exists w,
    run (tokens.Refresh "42" "yandex") Fixtures.sound Fixtures.store
    = (Ok (tokens.scan 42 "yandex" (Fixtures.stored "at-yandex")), w)
    /\ exists r, tokens_t (store w) !! (42, "yandex") = Some r
                 /\ k_access_token r = "at-new".
Proof.
  eexists. split; [reflexivity|].
  destruct (Refresh_returns_previous_token Fixtures.sound Fixtures.store
              "42" "yandex" _ _ eq_refl)
    as (uid & r & conf & newToken & Hid & Hr & _ & _ & _ & _ & _ & Hc & Hp & Hw).
  injection Hid as <-. eexists. split; [exact Hw|].
  vm_compute in Hr. injection Hr as <-.
  vm_compute in Hc. injection Hc as <-.
  vm_compute in Hp. injection Hp as <-. reflexivity.
Defined.

(** X14. What a successful [Refresh] does to the store: Apps and
    Exchanges are as before; in [auth.tokens] the rows of the user are
    rewritten, whatever their service, with the new access token, refresh
    token, expiry and [createdAt = now]; the rows of other users are left
    as they were. *)
Lemma Refresh_store env s userID service token w :
  run (tokens.Refresh userID service) env s = (Ok token, w) ->
  exists uid conf newToken,
    int4in env userID = Some uid
    /\ provider_token env conf (Token.Token token) = Ok newToken
    /\ apps_t (store w) = apps_t s
    /\ exchanges_t (store w) = exchanges_t s
    /\ (forall service' r,
          tokens_t s !! (uid, service') = Some r ->
          tokens_t (store w) !! (uid, service') =
          Some (tokens.update_row (oauth2.AccessToken newToken)
                  (oauth2.RefreshToken newToken) (oauth2.Expiry newToken)
                  (now env) r))
    /\ (forall uid' service',
          uid' <> uid ->
          tokens_t (store w) !! (uid', service')
          = tokens_t s !! (uid', service')).
Proof.
  rewrite Refresh_eq. cbn zeta.
  destruct (fst (run (tokens.select userID service) env s)) as [tok|]; [|done].
  destruct (fst (run (apps.GetConf _) env s)) as [conf|]; [|done].
  destruct (provider_token env conf _) as [newToken|] eqn:Hp; [|done].
  destruct (fault env _); [done|].
  destruct (int4in env userID) as [uid|]; [|done].
  intros [= <- <-]. exists uid, conf, newToken.
  cbn [store apps_t exchanges_t tokens_t].
  repeat (split; [done|]). split.
  - intros service' r Hr. rewrite update_user_lookup, Hr. simpl.
    by rewrite bool_decide_eq_true_2.
  - intros uid' service' Hne. rewrite update_user_lookup.
    destruct (tokens_t s !! (uid', service')); [|done]. simpl.
    by rewrite bool_decide_eq_false_2.
Qed.

(** C3. [Refresh] for one service of a user rewrites the rows of that
    user for every service: here the google token of user 42 is
    refreshed, and the yandex row of the same user, which held its own
    access token, receives the google material as well. *)
Theorem Refresh_overwrites_other_services :
  let s := Fixtures.store in
  let w := snd (run (tokens.Refresh "42" "google") Fixtures.sound s) in
  fst (run (tokens.Refresh "42" "google") Fixtures.sound s)
  = Ok (tokens.scan 42 "google" (Fixtures.stored "at-google"))
  /\ tokens_t s !! (42, "yandex") = Some (Fixtures.stored "at-yandex")
  /\ tokens_t (store w) !! (42, "yandex") =
     Some {| k_token_type := "bearer"; k_access_token := "at-new";
             k_expiry := 7200; k_refresh_token := "rt-new";
             k_created_at := 1000 |}
  /\ tokens_t (store w) !! (42, "google") =
     Some {| k_token_type := "bearer"; k_access_token := "at-new";
             k_expiry := 7200; k_refresh_token := "rt-new";
             k_created_at := 1000 |}.
Proof. vm_compute. repeat split; reflexivity. Qed.

(** ** [tokens.Create] *)

Lemma exchanges_Get_run id env s :
  fst (run (exchanges.Get id) env s) =
  if fault env (SelectExchange id) then Err driver_error
  else match exchanges_t s !! id with
       | None => Err sql_ErrNoRows
       | Some r =>
           Ok {| Exchange.ID := id;
                 Exchange.Service := x_service r;
                 Exchange.UserID := x_user_id r |}
       end.
Proof. unfold run. by rewrite exchanges_Get_eq. Qed.

Lemma exchanges_Delete_eq id env w :
  exchanges.Delete id env w =
  (if fault env (DeleteExchange id) then Err driver_error else Ok tt,
   {| store :=
        {| apps_t := apps_t (store w);
           exchanges_t :=
             if fault env (DeleteExchange id) then exchanges_t (store w)
             else delete id (exchanges_t (store w));
           tokens_t := tokens_t (store w) |};
      log := log w ++ [DeleteExchange id] |}).
Proof.
  unfold exchanges.Delete. rewrite bind_eq, send_eq.
  destruct (fault env (DeleteExchange id)); [by destruct w as [[] ?]|].
  reflexivity.
Qed.

Lemma Create_eq code exchangeID env s :
  run (tokens.Create code exchangeID) env s =
  let q1 := SelectExchange exchangeID in
  match fst (run (exchanges.Get exchangeID) env s) with
  | Err e => (Err e, {| store := s; log := [q1] |})
  | Ok exchange =>
      let q2 :=
        SelectAppByService (Exchange.Service exchange) apps.StatusEnable in
      match fst (run (apps.GetConf (Exchange.Service exchange)) env s) with
      | Err e => (Err e, {| store := s; log := [q1; q2] |})
      | Ok conf =>
          let c := ProviderExchange conf code in
          match provider_exchange env conf code with
          | Err e => (Err e, {| store := s; log := [q1; q2; c] |})
          | Ok tk =>
              let d := DeleteExchange exchangeID in
              let u := UpsertToken (granted_row env exchange tk) in
              let exchanges' :=
                if fault env d then exchanges_t s
                else delete exchangeID (exchanges_t s) in
              if fault env u then
                (Err driver_error,
                 {| store :=
                      {| apps_t := apps_t s;
                         exchanges_t := exchanges';
                         tokens_t := tokens_t s |};
                    log := [q1; q2; c; d; u] |})
              else
                (Ok (Exchange.UserID exchange),
                 {| store :=
                      {| apps_t := apps_t s;
                         exchanges_t := exchanges';
                         tokens_t :=
                           tokens.upsert (granted_row env exchange tk)
                             (tokens_t s) |};
                    log := [q1; q2; c; d; u] |})
          end
      end
  end.
Proof.
  unfold run at 1, tokens.Create. rewrite bind_eq, exchanges_Get_eq.
  unfold run at 1. rewrite exchanges_Get_eq. cbn [store log app fst].
  destruct (fault env (SelectExchange exchangeID)); [done|].
  destruct (exchanges_t s !! exchangeID) as [r|]; [|done].
  rewrite bind_eq, GetConf_frame. cbn [store log app Exchange.Service].
  destruct (fst (run (apps.GetConf (x_service r)) env s)) as [conf|e]; [|done].
  unfold bind at 1, emit at 1. unfold bind at 1, ask at 1. cbn [store log app].
  destruct (provider_exchange env conf code) as [tk|e]; [|done].
  unfold bind at 1, discard at 1. rewrite exchanges_Delete_eq.
  cbn [snd store log app apps_t exchanges_t tokens_t].
  rewrite bind_eq, send_eq. cbn [store log app apps_t exchanges_t tokens_t].
  unfold granted_row. cbn [Exchange.UserID Exchange.Service].
  destruct (fault env (UpsertToken _)); reflexivity.
Qed.

Lemma upsert_lookup (row : Token.t) (t : gmap (Z * string) token_row) :
  tokens.upsert row t !! (Token.UserID row, Token.Service row) =
  Some {| k_token_type :=
            match t !! (Token.UserID row, Token.Service row) with
            | Some old => k_token_type old
            | None => oauth2.TokenType (Token.Token row)
            end;
          k_access_token := oauth2.AccessToken (Token.Token row);
          k_expiry := oauth2.Expiry (Token.Token row);
          k_refresh_token := oauth2.RefreshToken (Token.Token row);
          k_created_at := Token.CreatedAt row |}.
Proof.
  unfold tokens.upsert.
  destruct (t !! (Token.UserID row, Token.Service row));
    by rewrite lookup_insert_eq.
Qed.

Lemma upsert_lookup_ne (row : Token.t) (t : gmap (Z * string) token_row)
    (k : Z * string) :
  k <> (Token.UserID row, Token.Service row) ->
  tokens.upsert row t !! k = t !! k.
Proof.
  intros Hk. unfold tokens.upsert.
  destruct (t !! (Token.UserID row, Token.Service row));
    by rewrite lookup_insert_ne.
Qed.

Lemma Create_inv code exchangeID env s userID w :
  run (tokens.Create code exchangeID) env s = (Ok userID, w) ->
  exists exchange conf tk,
    fst (run (exchanges.Get exchangeID) env s) = Ok exchange
    /\ fst (run (apps.GetConf (Exchange.Service exchange)) env s) = Ok conf
    /\ provider_exchange env conf code = Ok tk
    /\ fault env (UpsertToken (granted_row env exchange tk)) = false
    /\ userID = Exchange.UserID exchange
    /\ w = {| store :=
                {| apps_t := apps_t s;
                   exchanges_t :=
                     if fault env (DeleteExchange exchangeID)
                     then exchanges_t s
                     else delete exchangeID (exchanges_t s);
                   tokens_t :=
                     tokens.upsert (granted_row env exchange tk) (tokens_t s) |};
              log := [SelectExchange exchangeID;
                      SelectAppByService (Exchange.Service exchange)
                        apps.StatusEnable;
                      ProviderExchange conf code;
                      DeleteExchange exchangeID;
                      UpsertToken (granted_row env exchange tk)] |}.
Proof.
  rewrite Create_eq. cbn zeta.
  destruct (fst (run (exchanges.Get exchangeID) env s)) as [exchange|];
    [|done].
  destruct (fst (run (apps.GetConf _) env s)) as [conf|] eqn:Hc; [|done].
  destruct (provider_exchange env conf code) as [tk|] eqn:Hp; [|done].
  destruct (fault env (UpsertToken _)) eqn:Hu; [done|].
  intros [= <- <-]. exists exchange, conf, tk. by rewrite Hc.
Qed.




(** C2 as stated fails: after two successful creates for the pair
    (42, yandex), the stored row has the access token, refresh token,
    expiry and createdAt of the second exchange and the token type of the
    first. *)
Lemma Create_twice_mixes_token_type :
  let r1 := run (tokens.Create "c1" "state-1") Fixtures.sound Fixtures.pending in
  let r2 := run (tokens.Create "c2" "state-2") Fixtures.sound (store (snd r1)) in
  fst r1 = Ok 42 /\ fst r2 = Ok 42
  /\ provider_exchange Fixtures.sound
       {| oauth2.ClientID := "abc"; oauth2.ClientSecret := "secret";
          oauth2.Endpoint := oauth2.yandex_Endpoint;
          oauth2.RedirectURL := "https://x/cb";
          oauth2.Scopes := ["mail:imap_ro"] |} "c2"
     = Ok {| oauth2.AccessToken := "at-c2"; oauth2.TokenType := "type-c2";
             oauth2.RefreshToken := "rt-c2"; oauth2.Expiry := 3600 |}
  /\ tokens_t (store (snd r2)) !! (42, "yandex") =
     Some {| k_token_type := "type-c1"; k_access_token := "at-c2";
             k_expiry := 3600; k_refresh_token := "rt-c2";
             k_created_at := 1000 |}
  /\ "type-c1" <> "type-c2".
Proof. vm_compute. repeat split; try reflexivity. discriminate. Qed.

(** ** The life of an Exchange row *)

(** One step of symbolic execution of a method: expose the next bind or
    statement, or split on the test it branches on. *)
Ltac run_step :=
  first
    [ rewrite bind_eq
    | rewrite send_eq
    | progress cbn beta iota zeta delta
        [store log exchanges_t apps_t tokens_t fst snd
         ask get_store put_store fail ret]
    | match goal with
      | |- context [if ?b then _ else _] => destruct b
      | |- context [match ?o with Some _ => _ | None => _ end] => destruct o
      end ].

Ltac run_through := unfold run; repeat run_step; reflexivity.

(** The calls that neither insert into nor delete from [auth.exchanges]. *)

Lemma apps_Create_exchanges app env s :
  exchanges_t (store (snd (run (apps.Create app) env s))) = exchanges_t s.
Proof. unfold apps.Create. run_through. Qed.

Lemma SetStatus_exchanges id status env s :
  exchanges_t (store (snd (run (apps.SetStatus id status) env s)))
  = exchanges_t s.
Proof. unfold apps.SetStatus. run_through. Qed.

Lemma GetByID_exchanges id env s :
  exchanges_t (store (snd (run (apps.GetByID id) env s))) = exchanges_t s.
Proof. unfold apps.GetByID. run_through. Qed.

Lemma GetByService_exchanges service env s :
  exchanges_t (store (snd (run (apps.GetByService service) env s)))
  = exchanges_t s.
Proof. unfold apps.GetByService. run_through. Qed.

Lemma tokens_Get_exchanges userID service env s :
  exchanges_t (store (snd (run (tokens.Get userID service) env s)))
  = exchanges_t s.
Proof. unfold tokens.Get, tokens.select. run_through. Qed.

Lemma Refresh_exchanges userID service env s :
  exchanges_t (store (snd (run (tokens.Refresh userID service) env s)))
  = exchanges_t s.
Proof. rewrite Refresh_eq. cbn zeta. repeat case_match; reflexivity. Qed.

Lemma perform_keeps_exchange c env s id r :
  exchanges_t s !! id = Some r ->
  forallb (fun ev => negb (removes id env ev)) (log (perform c env s)) = true ->
  exchanges_t (store (perform c env s)) !! id = Some r.
Proof.
  intros Hr Hlog. destruct c as [app|i st|i|sv|sv uid|u sv|u sv|code i];
    cbn [perform] in *.
  - by rewrite apps_Create_exchanges.
  - by rewrite SetStatus_exchanges.
  - by rewrite GetByID_exchanges.
  - by rewrite GetByService_exchanges.
  - rewrite AuthCodeURL_eq. cbn zeta.
    destruct (fst (run (apps.GetConf sv) env s)); [|done].
    destruct (rand_fails env); [done|].
    destruct (fault env _); [done|].
    destruct (exchanges_t s !! random_string env 32) eqn:Hn; [done|].
    cbn [snd store exchanges_t]. rewrite lookup_insert_ne; [done|].
    intros Heq. rewrite Heq in Hn. congruence.
  - by rewrite tokens_Get_exchanges.
  - by rewrite Refresh_exchanges.
  - rewrite Create_eq in Hlog |- *. cbn zeta in *.
    destruct (fst (run (exchanges.Get i) env s)); [|done].
    destruct (fst (run (apps.GetConf _) env s)); [|done].
    destruct (provider_exchange env _ code); [|done].
    assert (Hne : fault env (DeleteExchange i) = false -> i <> id).
    { intros Hd ->.
      destruct (fault env (UpsertToken _)); cbn [snd log forallb removes] in Hlog;
        rewrite Hd, String.eqb_refl in Hlog; discriminate Hlog. }
    destruct (fault env (UpsertToken _)); cbn [snd store exchanges_t];
      (destruct (fault env (DeleteExchange i)); [done|]);
      rewrite lookup_delete_ne; auto.
Qed.

Lemma perform_keeps_absent c env s id :
  exchanges_t s !! id = None ->
  forallb (fun ev => negb (mints id env ev)) (log (perform c env s)) = true ->
  exchanges_t (store (perform c env s)) !! id = None.
Proof.
  intros Hr Hlog. destruct c as [app|i st|i|sv|sv uid|u sv|u sv|code i];
    cbn [perform] in *.
  - by rewrite apps_Create_exchanges.
  - by rewrite SetStatus_exchanges.
  - by rewrite GetByID_exchanges.
  - by rewrite GetByService_exchanges.
  - rewrite AuthCodeURL_eq in Hlog |- *. cbn zeta in *.
    destruct (fst (run (apps.GetConf sv) env s)); [|done].
    destruct (rand_fails env); [done|].
    destruct (fault env _); [done|].
    destruct (exchanges_t s !! random_string env 32) eqn:Hn; [done|].
    cbn [snd store exchanges_t log forallb mints Exchange.ID] in *.
    rewrite lookup_insert_ne; [done|].
    intros Heq. rewrite Heq, String.eqb_refl in Hlog. discriminate Hlog.
  - by rewrite tokens_Get_exchanges.
  - by rewrite Refresh_exchanges.
  - rewrite Create_eq. cbn zeta.
    destruct (fst (run (exchanges.Get i) env s)); [|done].
    destruct (fst (run (apps.GetConf _) env s)); [|done].
    destruct (provider_exchange env _ code); [|done].
    destruct (fault env (UpsertToken _)); cbn [snd store exchanges_t];
      (destruct (fault env (DeleteExchange i)); [done|]);
      rewrite lookup_delete; case_decide; done.
Qed.

Lemma replay_keeps_exchange h : forall s id r,
  exchanges_t s !! id = Some r ->
  never (removes id) h s ->
  exchanges_t (replay h s) !! id = Some r.
Proof.
  induction h as [|[env c] h IH]; intros s id r Hr Hn; [done|].
  destruct Hn as [Hlog Hn]. cbn [replay].
  apply IH; [|done]. by apply perform_keeps_exchange.
Qed.

Lemma replay_keeps_absent h : forall s id,
  exchanges_t s !! id = None ->
  never (mints id) h s ->
  exchanges_t (replay h s) !! id = None.
Proof.
  induction h as [|[env c] h IH]; intros s id Hr Hn; [done|].
  destruct Hn as [Hlog Hn]. cbn [replay].
  apply IH; [|done]. by apply perform_keeps_absent.
Qed.

(** C4 as stated fails, in two ways. The Exchange minted by
    [AuthCodeURL] for (yandex, 42) is consumed by a successful [Create]
    whose [DELETE] the driver rejects: the row stays, and a later
    [Create] with the same id does not fail with not-found but goes
    through all five steps again. And a [Create] that fails on its token
    write, hence is not successful, has already deleted the row, which is
    no longer retrievable. *)
Lemma Create_same_exchange_twice :
  let id := "0123456789abcdefghijklmnopqrstuv" in
  let conf :=
    {| oauth2.ClientID := "abc"; oauth2.ClientSecret := "secret";
       oauth2.Endpoint := oauth2.yandex_Endpoint;
       oauth2.RedirectURL := "https://x/cb";
       oauth2.Scopes := ["mail:imap_ro"] |} in
  let a := run (apps.AuthCodeURL "yandex" 42) Fixtures.sound Fixtures.fresh in
  let r1 := run (tokens.Create "c1" id) Fixtures.delete_fails (store (snd a)) in
  let r2 := run (tokens.Create "c2" id) Fixtures.sound (store (snd r1)) in
  let r1' := run (tokens.Create "c1" id) Fixtures.upsert_fails (store (snd a)) in
  fst a = Ok (oauth2.AuthCodeURL conf id)
  /\ fst r1 = Ok 42
  /\ fst r2 = Ok 42
  /\ log (snd r2) =
     [SelectExchange id; SelectAppByService "yandex" "enable";
      ProviderExchange conf "c2"; DeleteExchange id;
      UpsertToken
        {| Token.Token := Fixtures.granted "c2"; Token.UserID := 42;
           Token.Service := "yandex"; Token.CreatedAt := 1000 |}]
  /\ fst r1' = Err driver_error
  /\ fst (run (exchanges.Get id) Fixtures.sound (store (snd r1')))
     = Err sql_ErrNoRows.
Proof. vm_compute. repeat split; reflexivity. Qed.

Lemma perform_keeps_unconsumed c env s id r :
  exchanges_t s !! id = Some r ->
  ~ consumes id env c s ->
  exchanges_t (store (perform c env s)) !! id = Some r.
Proof.
  intros Hr Hnot. destruct c as [app|i st|i|sv|sv uid|u sv|u sv|code i];
    cbn [perform] in *.
  - by rewrite apps_Create_exchanges.
  - by rewrite SetStatus_exchanges.
  - by rewrite GetByID_exchanges.
  - by rewrite GetByService_exchanges.
  - rewrite AuthCodeURL_eq. cbn zeta.
    destruct (fst (run (apps.GetConf sv) env s)); [|done].
    destruct (rand_fails env); [done|].
    destruct (fault env _); [done|].
    destruct (exchanges_t s !! random_string env 32) eqn:Hn; [done|].
    cbn [snd store exchanges_t]. rewrite lookup_insert_ne; [done|].
    intros Heq. rewrite Heq in Hn. congruence.
  - by rewrite tokens_Get_exchanges.
  - by rewrite Refresh_exchanges.
  - rewrite Create_eq. cbn zeta.
    destruct (fst (run (exchanges.Get i) env s)) as [ex|] eqn:Hg; [|done].
    destruct (fst (run (apps.GetConf _) env s)) as [conf|] eqn:Hc; [|done].
    destruct (provider_exchange env conf code) as [tk|] eqn:Hp; [|done].
    assert (Hne : fault env (DeleteExchange i) = false -> i <> id).
    { intros Hd ->. apply Hnot. by exists code, ex, conf, tk. }
    destruct (fault env (UpsertToken _)); cbn [snd store exchanges_t];
      (destruct (fault env (DeleteExchange i)); [done|]);
      rewrite lookup_delete_ne; auto.
Qed.

Lemma replay_keeps_unconsumed h : forall s id r,
  exchanges_t s !! id = Some r ->
  unconsumed id h s ->
  exchanges_t (replay h s) !! id = Some r.
Proof.
  induction h as [|[env c] h IH]; intros s id r Hr Hn; [done|].
  destruct Hn as [Hc Hn]. cbn [replay].
  apply IH; [|done]. by apply perform_keeps_unconsumed.
Qed.

(** C4, amended. The Exchange inserted by a successful [AuthCodeURL] is
    retrievable by the id carried in the returned URL until a [Create]
    for this id gets past the grant exchange (Exchange found, client
    configuration resolved, code accepted by the provider) with a
    [DELETE] the driver accepts: no other call, and no [Create] that
    stops earlier or whose [DELETE] fails, removes it, and such a
    [Create] removes it whether or not it then succeeds in writing the
    token. After a successful [Create(code, exchangeID)] whose [DELETE]
    took effect, and as long as no Exchange is inserted under the same
    id again, every later [Create] with that id stops at step 1: its
    only statement is the [SELECT] on [auth.exchanges] (no
    client-configuration lookup, no provider call, no token write), it
    fails, and the error is [sql.ErrNoRows] (not found) when that lookup
    reaches the database. *)
Theorem Exchange_lifetime :
  (forall env s service userID url w,
     run (apps.AuthCodeURL service userID) env s = (Ok url, w) ->
     exists conf id,
       url = oauth2.AuthCodeURL conf id
       /\ forall h, unconsumed id h (store w) ->
          forall env', fault env' (SelectExchange id) = false ->
          fst (run (exchanges.Get id) env' (replay h (store w)))
          = Ok {| Exchange.ID := id;
                  Exchange.Service := service;
                  Exchange.UserID := userID |})
  /\ (forall env c s id,
        consumes id env c s ->
        is_Some (exchanges_t s !! id)
        /\ exchanges_t (store (perform c env s)) !! id = None
        /\ forall env',
             fault env' (SelectExchange id) = false ->
             fst (run (exchanges.Get id) env' (store (perform c env s)))
             = Err sql_ErrNoRows)
  /\ (forall env s code id userID w,
        run (tokens.Create code id) env s = (Ok userID, w) ->
        fault env (DeleteExchange id) = false ->
        forall h, never (mints id) h (store w) ->
        forall env' code',
          let s' := replay h (store w) in
          snd (run (tokens.Create code' id) env' s')
          = {| store := s'; log := [SelectExchange id] |}
          /\ (exists e, fst (run (tokens.Create code' id) env' s') = Err e)
          /\ (fault env' (SelectExchange id) = false ->
              fst (run (tokens.Create code' id) env' s') = Err sql_ErrNoRows)).
Proof.
  split; [|split].
  - intros env s service userID url w Hrun.
    rewrite AuthCodeURL_eq in Hrun. cbn zeta in Hrun.
    destruct (fst (run (apps.GetConf service) env s)) as [conf|]; [|done].
    destruct (rand_fails env); [done|].
    destruct (fault env _); [done|].
    destruct (exchanges_t s !! random_string env 32); [done|].
    injection Hrun as <- <-.
    exists conf, (random_string env 32). split; [done|].
    intros h Hn env' Hok. rewrite exchanges_Get_run, Hok.
    rewrite (replay_keeps_unconsumed h _ _
               {| x_service := service; x_user_id := userID |});
      [reflexivity| |done].
    cbn [store exchanges_t]. apply lookup_insert_eq.
  - intros env c s id (code & ex & conf & tk & -> & Hg & Hc & Hp & Hd).
    assert (Hsome : is_Some (exchanges_t s !! id)).
    { rewrite exchanges_Get_run in Hg. destruct (fault env _); [done|].
      by destruct (exchanges_t s !! id). }
    assert (Hnone : exchanges_t (store (perform (TokensCreate code id) env s))
                      !! id = None).
    { cbn [perform]. rewrite Create_eq, Hg. cbn zeta. rewrite Hc, Hp, Hd.
      destruct (fault env (UpsertToken _)); cbn [snd store exchanges_t];
        apply lookup_delete_eq. }
    split; [done|]. split; [done|].
    intros env' Hok. by rewrite exchanges_Get_run, Hok, Hnone.
  - intros env s code id userID w Hrun Hd h Hn env' code'. cbn zeta.
    apply Create_inv in Hrun as (ex & conf & tk & _ & _ & _ & _ & _ & ->).
    rewrite Hd in *. cbn [store] in *.
    set (s' := replay h _).
    assert (Hnone : exchanges_t s' !! id = None).
    { apply replay_keeps_absent; [|done].
      cbn [exchanges_t]. apply lookup_delete_eq. }
    rewrite Create_eq, exchanges_Get_run, Hnone. cbn zeta.
    destruct (fault env' _); cbn [fst snd].
    + split; [done|]. split; [by eexists | done].
    + split; [done|]. split; [by eexists | done].
Qed.

Lemma Exchange_lifetime_witness :
  let id := "0123456789abcdefghijklmnopqrstuv" in
  let w := snd (run (apps.AuthCodeURL "yandex" 42) Fixtures.sound
                  Fixtures.fresh) in
  (let h := [(Scenario.provider_rejects, TokensCreate "c0" id);
             (Fixtures.delete_fails, TokensCreate "c1" id);
             (Fixtures.sound, TokensRefresh "42" "yandex")] in
   fst (run (exchanges.Get id) Fixtures.sound (replay h (store w)))
   = Ok {| Exchange.ID := id; Exchange.Service := "yandex";
           Exchange.UserID := 42 |})
  /\ fst (run (exchanges.Get id) Fixtures.sound
            (store (perform (TokensCreate "c1" id) Fixtures.upsert_fails
                      (store w))))
     = Err sql_ErrNoRows
  /\ (let w1 := snd (run (tokens.Create "c1" "state-1") Fixtures.sound
                       Fixtures.pending) in
      let h := [(Fixtures.sound, AppsAuthCodeURL "google" 42);
                (Fixtures.sound, TokensRefresh "42" "yandex")] in
      fst (run (tokens.Create "c2" "state-1") Fixtures.sound
             (replay h (store w1)))
      = Err sql_ErrNoRows).
Proof.
  intros id w. destruct Exchange_lifetime as (H1 & H2 & H3).
  pose (conf := {| oauth2.ClientID := "abc"; oauth2.ClientSecret := "secret";
                   oauth2.Endpoint := oauth2.yandex_Endpoint;
                   oauth2.RedirectURL := "https://x/cb";
                   oauth2.Scopes := ["mail:imap_ro"] |}).
  split; [|split].
  - intros h.
    destruct (H1 Fixtures.sound Fixtures.fresh "yandex" 42
                (oauth2.AuthCodeURL conf id) w eq_refl)
      as (conf' & id' & Hurl & Hget).
    injection Hurl as _ <-.
    apply (Hget h); [|reflexivity].
    cbn [unconsumed h]. repeat split.
    + intros (code & ex & cf & tk & _ & _ & _ & Hp & _). discriminate Hp.
    + intros (code & ex & cf & tk & _ & _ & _ & _ & Hd). discriminate Hd.
    + intros (code & ex & cf & tk & Hc & _). discriminate Hc.
  - apply (H2 Fixtures.upsert_fails (TokensCreate "c1" id) (store w) id);
      [|reflexivity].
    exists "c1", {| Exchange.ID := id; Exchange.Service := "yandex";
                    Exchange.UserID := 42 |}, conf, (Fixtures.granted "c1").
    repeat split; reflexivity.
  - intros w1 h.
    assert (Hn : never (mints "state-1") h (store w1))
      by (cbn [never h]; repeat split; vm_compute; reflexivity).
    destruct (H3 Fixtures.sound Fixtures.pending "c1" "state-1" 42 w1 eq_refl
                eq_refl h Hn Fixtures.sound "c2") as (_ & _ & He).
    apply He. reflexivity.
Defined.

(** * Further properties of the models *)

(** ** The App directory *)

Lemma apps_Create_eq app env s :
  run (apps.Create app) env s =
  let q := InsertApp app (now env) in
  if fault env q then (Err driver_error, {| store := s; log := [q] |})
  else
    match find (apps.by_id (App.ID app)) (apps_t s) with
    | Some _ => (Err apps_ErrExists, {| store := s; log := [q] |})
    | None =>
        (Ok (App.ID app),
         {| store :=
              {| apps_t :=
                   apps_t s ++
                   [{| App.ID := App.ID app;
                       App.Service := App.Service app;
                       App.Password := App.Password app;
                       App.CallbackURL := App.CallbackURL app;
                       App.Expiry := App.Expiry app;
                       App.CreatedAt := Some (now env);
                       App.Status := App.Status app |}];
                 exchanges_t := exchanges_t s;
                 tokens_t := tokens_t s |};
            log := [q] |})
    end.
Proof.
  unfold run, apps.Create. rewrite bind_eq. unfold ask at 1.
  rewrite bind_eq, send_eq. cbn [store log Datatypes.app]. cbn zeta.
  destruct (fault env _); [done|].
  unfold bind, get_store, put_store, fail, ret; cbn [store log].
  by destruct (find _ _).
Qed.

Lemma find_by_id_None id l :
  find (apps.by_id id) l = None <-> ~ In id (map App.ID l).
Proof.
  unfold apps.by_id. split.
  - intros Hf Hin. apply in_map_iff in Hin as (row & <- & Hin).
    apply (find_none _ _ Hf) in Hin. by rewrite String.eqb_refl in Hin.
  - intros Hn. destruct (find _ l) as [row|] eqn:Hf; [|done].
    apply find_some in Hf as [Hin Hb]. apply String.eqb_eq in Hb.
    exfalso. apply Hn, in_map_iff. by exists row.
Qed.

Lemma find_by_id_app id l row :
  find (apps.by_id id) l = None ->
  App.ID row = id ->
  find (apps.by_id id) (l ++ [row]) = Some row.
Proof.
  intros Hn Hid. induction l as [|x l IH]; simpl in *.
  - unfold apps.by_id. by rewrite Hid, String.eqb_refl.
  - destruct (apps.by_id id x); [done|]. by apply IH.
Qed.

Lemma GetByID_run id env s :
  run (apps.GetByID id) env s =
  (if fault env (SelectAppByID id) then Err driver_error
   else match find (apps.by_id id) (apps_t s) with
        | None => Err sql_ErrNoRows
        | Some row => Ok (apps.scan row)
        end,
   {| store := s; log := [SelectAppByID id] |}).
Proof.
  unfold run, apps.GetByID. rewrite bind_eq, send_eq. cbn [store log Datatypes.app].
  destruct (fault env _); [done|].
  unfold bind, get_store, fail, ret; cbn [store log].
  by destruct (find _ _).
Qed.

Lemma GetByService_run service env s :
  run (apps.GetByService service) env s =
  (if fault env (SelectAppByService service apps.StatusEnable)
   then Err driver_error
   else match find (apps.by_service service apps.StatusEnable) (apps_t s) with
        | None => Err sql_ErrNoRows
        | Some row => Ok (apps.scan row)
        end,
   {| store := s; log := [SelectAppByService service apps.StatusEnable] |}).
Proof.
  unfold run, apps.GetByService. rewrite bind_eq, send_eq. cbn [store log Datatypes.app].
  destruct (fault env _); [done|].
  unfold bind, get_store, fail, ret; cbn [store log].
  by destruct (find _ _).
Qed.

(** X1. An App that [apps.Create] has stored is read back by [GetByID]
    under the returned id with the submitted service, password, callback
    URL and expiry and with [created_at] the time of the insert; its
    status is not read back: the field is empty whatever was stored. *)
Theorem apps_Create_then_GetByID env env' s app id w :
  run (apps.Create app) env s = (Ok id, w) ->
  fault env' (SelectAppByID id) = false ->
  id = App.ID app
  /\ fst (run (apps.GetByID id) env' (store w)) =
     Ok {| App.ID := App.ID app;
           App.Service := App.Service app;
           App.Password := App.Password app;
           App.CallbackURL := App.CallbackURL app;
           App.Expiry := App.Expiry app;
           App.CreatedAt := Some (now env);
           App.Status := "" |}.
Proof.
  rewrite apps_Create_eq. cbn zeta.
  destruct (fault env _); [done|].
  destruct (find _ (apps_t s)) eqn:Hf; [done|].
  intros [= <- <-] Hok. split; [done|].
  rewrite GetByID_run, Hok. cbn [fst store apps_t].
  erewrite find_by_id_app; [reflexivity | exact Hf | reflexivity].
Qed.

Lemma apps_Create_then_GetByID_witness :
  fst (run (apps.GetByID "new")
         Fixtures.sound
         (store (snd (run (apps.Create (Fixtures.app "new" "vk" "disable"))
                        Fixtures.sound Fixtures.store))))
  = Ok {| App.ID := "new"; App.Service := "vk"; App.Password := "secret";
          App.CallbackURL := "https://x/cb"; App.Expiry := None;
          App.CreatedAt := Some 1000; App.Status := "" |}.
Proof.
  pose (w := snd (run (apps.Create (Fixtures.app "new" "vk" "disable"))
                    Fixtures.sound Fixtures.store)).
  assert (Hrun : run (apps.Create (Fixtures.app "new" "vk" "disable"))
                   Fixtures.sound Fixtures.store = (Ok "new", w))
    by reflexivity.
  exact (proj2 (apps_Create_then_GetByID Fixtures.sound Fixtures.sound
                  Fixtures.store _ "new" w Hrun eq_refl)).
Defined.

(** X2. [apps.Create] under an id that is already stored fails and leaves
    the store as it was; the error is [ErrExists] when the statement
    reaches the database. *)
Theorem apps_Create_existing_id env s app row :
  In row (apps_t s) ->
  App.ID row = App.ID app ->
  snd (run (apps.Create app) env s) =
    {| store := s; log := [InsertApp app (now env)] |}
  /\ (exists e, fst (run (apps.Create app) env s) = Err e)
  /\ (fault env (InsertApp app (now env)) = false ->
      fst (run (apps.Create app) env s) = Err apps_ErrExists).
Proof.
  intros Hin Hid. rewrite apps_Create_eq. cbn zeta.
  destruct (fault env _).
  { split; [done|]. split; [by eexists | done]. }
  destruct (find _ (apps_t s)) eqn:Hf.
  { split; [done|]. split; [by eexists | done]. }
  exfalso. apply find_by_id_None in Hf. apply Hf, in_map_iff. by exists row.
Qed.

Lemma apps_Create_existing_id_witness :
  run (apps.Create (Fixtures.app "abc" "vk" "enable")) Fixtures.sound
    Fixtures.store
  = (Err apps_ErrExists,
     {| store := Fixtures.store;
        log := [InsertApp (Fixtures.app "abc" "vk" "enable") 1000] |}).
Proof.
  destruct (apps_Create_existing_id Fixtures.sound Fixtures.store
              (Fixtures.app "abc" "vk" "enable")
              (Fixtures.app "abc" "yandex" "enable"))
    as (Hw & _ & He); [by left | reflexivity |].
  rewrite (surjective_pairing (run _ _ _)), Hw, He; reflexivity.
Defined.

Lemma GetConf_row env s service conf :
  fst (run (apps.GetConf service) env s) = Ok conf ->
  fault env (SelectAppByService service apps.StatusEnable) = false
  /\ exists row,
       find (apps.by_service service apps.StatusEnable) (apps_t s) = Some row
       /\ oauth2.ClientID conf = App.ID row
       /\ oauth2.ClientSecret conf = App.Password row
       /\ oauth2.RedirectURL conf = App.CallbackURL row
       /\ oauth2.Scopes conf = apps.scopes_at service
       /\ registered service.
Proof.
  intros Hc.
  destruct (fault env _) eqn:Hok.
  { unfold run, apps.GetConf in Hc. rewrite bind_eq, send_eq, Hok in Hc.
    discriminate Hc. }
  split; [done|].
  destruct (find (apps.by_service service apps.StatusEnable) (apps_t s))
    as [row|] eqn:Hf.
  2: { rewrite GetConf_no_app in Hc; [done|done|].
       intros Ha. apply find_enabled_app in Ha as [r Hr]. congruence. }
  rewrite (GetConf_found _ _ _ _ Hok Hf) in Hc. cbn zeta in Hc.
  exists row. split; [done|]. unfold registered.
  destruct (String.eqb_spec service apps.Yandex);
    [injection Hc as <-; simpl; tauto|].
  destruct (String.eqb_spec service apps.Google);
    [injection Hc as <-; simpl; tauto|].
  destruct (String.eqb_spec service apps.Mail);
    [injection Hc as <-; simpl; tauto|].
  destruct (String.eqb_spec service apps.VK);
    [injection Hc as <-; simpl; tauto|].
  discriminate Hc.
Qed.

(** X4. Whenever [GetConf] resolves a configuration for a service,
    [GetByService] resolves an App for it, and the configuration is built
    from that App: its client id, secret and redirect URL are the App's
    id, password and callback URL, and the service is one of the four
    registered ones. *)
Theorem GetConf_from_GetByService env s service conf :
  fst (run (apps.GetConf service) env s) = Ok conf ->
  exists app,
    fst (run (apps.GetByService service) env s) = Ok app
    /\ App.Service app = service
    /\ oauth2.ClientID conf = App.ID app
    /\ oauth2.ClientSecret conf = App.Password app
    /\ oauth2.RedirectURL conf = App.CallbackURL app
    /\ oauth2.Scopes conf = apps.scopes_at service
    /\ registered service.
Proof.
  intros Hc.
  apply GetConf_row in Hc as (Hok & row & Hf & Hid & Hpw & Hcb & Hsc & Hreg).
  exists (apps.scan row). rewrite GetByService_run, Hok, Hf.
  split; [done|].
  split; [exact (find_by_service_Service _ _ _ _ Hf)|].
  by cbn [apps.scan App.ID App.Password App.CallbackURL].
Qed.

Lemma GetConf_from_GetByService_witness :
  exists app,
    fst (run (apps.GetByService "google") Fixtures.sound Fixtures.store)
    = Ok app
    /\ App.ID app = "def".
Proof.
  destruct (GetConf_from_GetByService Fixtures.sound Fixtures.store "google"
              _ eq_refl) as (app & Hg & _ & Hid & _).
  exists app. split; [exact Hg|]. rewrite <- Hid. reflexivity.
Defined.

Lemma SetStatus_eq id status env s :
  run (apps.SetStatus id status) env s =
  let u := UpdateAppStatus id status in
  if negb (String.eqb status apps.StatusDisable)
     && negb (String.eqb status apps.StatusEnable)
  then (Err apps_ErrStatus, {| store := s; log := [] |})
  else if fault env u then (Err driver_error, {| store := s; log := [u] |})
  else
    (Err sql_ErrNoRows,
     {| store :=
          {| apps_t :=
               map (fun row => if apps.by_id id row
                               then apps.set_status status row else row)
                   (apps_t s);
             exchanges_t := exchanges_t s;
             tokens_t := tokens_t s |};
        log := [u] |}).
Proof.
  unfold run, apps.SetStatus. cbn zeta.
  destruct (negb _ && negb _); [done|].
  rewrite bind_eq, send_eq. cbn [store log Datatypes.app].
  by destruct (fault env _).
Qed.

Lemma set_status_ids id status l :
  map App.ID
    (map (fun row => if apps.by_id id row
                     then apps.set_status status row else row) l)
  = map App.ID l.
Proof.
  rewrite map_map. apply map_ext. intros row.
  by destruct (apps.by_id id row).
Qed.

Lemma find_by_id_set_status id id' status l :
  apps.scan <$>
    find (apps.by_id id')
      (map (fun row => if apps.by_id id row
                       then apps.set_status status row else row) l)
  = apps.scan <$> find (apps.by_id id') l.
Proof.
  induction l as [|x l IH]; [done|]. cbn [map find].
  destruct (apps.by_id id x) eqn:Hx.
  - unfold apps.by_id at 1. cbn [apps.set_status App.ID].
    fold (apps.by_id id' x). by destruct (apps.by_id id' x).
  - by destruct (apps.by_id id' x).
Qed.

(** The calls other than [apps.Create] and [apps.SetStatus] leave
    [auth.apps] alone. *)
Lemma perform_apps c env s :
  match c with
  | AppsCreate _ | AppsSetStatus _ _ => True
  | _ => apps_t (store (perform c env s)) = apps_t s
  end.
Proof.
  destruct c as [a|i st|i|sv|sv uid|u sv|u sv|code i]; cbn [perform];
    try done.
  - by rewrite GetByID_run.
  - by rewrite GetByService_run.
  - rewrite AuthCodeURL_eq. cbn zeta. repeat case_match; reflexivity.
  - unfold tokens.Get, tokens.select. run_through.
  - rewrite Refresh_eq. cbn zeta. repeat case_match; reflexivity.
  - rewrite Create_eq. cbn zeta. repeat case_match; reflexivity.
Qed.

Lemma perform_keeps_ids_unique c env s :
  NoDup (map App.ID (apps_t s)) ->
  NoDup (map App.ID (apps_t (store (perform c env s)))).
Proof.
  intros Hs. pose proof (perform_apps c env s) as Hc.
  destruct c as [a|i st|i|sv|sv uid|u sv|u sv|code i];
    try (by rewrite Hc); cbn [perform].
  - rewrite apps_Create_eq. cbn zeta.
    destruct (fault env _); [done|].
    destruct (find _ (apps_t s)) eqn:Hf; [done|].
    cbn [snd store apps_t]. rewrite map_app. cbn [map App.ID].
    apply find_by_id_None in Hf.
    apply NoDup_app. split; [done|]. split; [|apply NoDup_singleton].
    intros x Hx Hx'. apply list_elem_of_singleton in Hx' as ->.
    by apply Hf, list_elem_of_In.
  - rewrite SetStatus_eq. cbn zeta.
    destruct (negb _ && negb _); [done|].
    destruct (fault env _); [done|].
    cbn [snd store apps_t]. by rewrite set_status_ids.
Qed.

(** X3. No call ever stores two Apps under one id: if the ids of
    [auth.apps] are pairwise distinct, they still are after any history
    of calls. *)
Theorem apps_ids_stay_unique h : forall s,
  NoDup (map App.ID (apps_t s)) ->
  NoDup (map App.ID (apps_t (replay h s))).
Proof.
  induction h as [|[env c] h IH]; intros s Hs; [done|].
  cbn [replay]. by apply IH, perform_keeps_ids_unique.
Qed.

Lemma apps_ids_stay_unique_witness :
  NoDup
    (map App.ID
       (apps_t
          (replay
             [(Fixtures.sound, AppsCreate (Fixtures.app "abc" "vk" "enable"));
              (Fixtures.sound, AppsCreate (Fixtures.app "new" "vk" "enable"));
              (Fixtures.sound, AppsSetStatus "new" "disable")]
             Fixtures.store))).
Proof.
  apply apps_ids_stay_unique.
  apply (bool_decide_unpack _). vm_compute. reflexivity.
Defined.

(** X5. [SetStatus] takes effect although it reports an error. After
    [SetStatus(id, "disable")] has reached the database, neither
    [GetByService] nor [GetConf] resolves the App with that id for any
    service, while [GetByID] answers as before. After
    [SetStatus(id, "enable")] on a stored App, [GetByService] for that
    App's service finds an enabled App. *)
Theorem SetStatus_takes_effect env s id :
  (fault env (UpdateAppStatus id apps.StatusDisable) = false ->
   let s' := store (snd (run (apps.SetStatus id apps.StatusDisable) env s)) in
   forall env' service,
     (forall app, fst (run (apps.GetByService service) env' s') = Ok app ->
                  App.ID app <> id)
     /\ (forall conf, fst (run (apps.GetConf service) env' s') = Ok conf ->
                      oauth2.ClientID conf <> id)
     /\ fst (run (apps.GetByID id) env' s') = fst (run (apps.GetByID id) env' s))
  /\ (fault env (UpdateAppStatus id apps.StatusEnable) = false ->
      let s' := store (snd (run (apps.SetStatus id apps.StatusEnable) env s)) in
      forall env' row,
        In row (apps_t s) -> App.ID row = id ->
        fault env' (SelectAppByService (App.Service row) apps.StatusEnable)
        = false ->
        exists app,
          fst (run (apps.GetByService (App.Service row)) env' s') = Ok app
          /\ App.Service app = App.Service row).
Proof.
  split.
  - intros Hok s' env' service. subst s'.
    rewrite SetStatus_eq. cbn zeta. rewrite Hok.
    cbn [negb andb String.eqb snd store]. simpl (negb _ && negb _).
    cbn iota. cbn [snd store].
    assert (Hsvc : forall app,
      fst (run (apps.GetByService service) env'
             {| apps_t :=
                  map (fun row => if apps.by_id id row
                                  then apps.set_status apps.StatusDisable row
                                  else row) (apps_t s);
                exchanges_t := exchanges_t s;
                tokens_t := tokens_t s |}) = Ok app ->
      App.ID app <> id).
    { intros app. rewrite GetByService_run. cbn [fst apps_t].
      destruct (fault env' _); [done|].
      destruct (find _ _) as [r|] eqn:Hf; [|done].
      intros [= <-]. apply find_some in Hf as [Hin Hb].
      apply in_map_iff in Hin as (r0 & Hr & _).
      unfold apps.by_service in Hb. apply andb_true_iff in Hb as [_ Hst].
      apply String.eqb_eq in Hst.
      intros Hid. unfold apps.by_id in Hr.
      destruct (String.eqb_spec (App.ID r0) id) as [?|Hne].
      - subst r. cbn in Hst. discriminate Hst.
      - subst r. cbn in Hid. done. }
    split; [exact Hsvc|]. split.
    + intros conf Hc.
      apply GetConf_row in Hc as (Hq & row & Hf & -> & _).
      cbn [apps_t] in Hf.
      specialize (Hsvc (apps.scan row)).
      rewrite GetByService_run, Hq in Hsvc. cbn [fst apps_t] in Hsvc.
      rewrite Hf in Hsvc. by apply Hsvc.
    + rewrite !GetByID_run. cbn [fst apps_t].
      destruct (fault env' _); [done|].
      pose proof (find_by_id_set_status id id apps.StatusDisable (apps_t s))
        as Hfind.
      destruct (find _ (map _ _)), (find _ (apps_t s)); simpl in Hfind;
        congruence.
  - intros Hok s' env' row Hin Hid Hok'. subst s'.
    rewrite SetStatus_eq. cbn zeta. rewrite Hok.
    simpl (negb _ && negb _). cbn iota. cbn [snd store].
    rewrite GetByService_run, Hok'. cbn [fst apps_t].
    destruct (find _ _) as [r|] eqn:Hf.
    + eexists. split; [reflexivity|].
      exact (find_by_service_Service _ _ _ _ Hf).
    + exfalso.
      assert (Hin' : In (apps.set_status apps.StatusEnable row)
                (map (fun row0 => if apps.by_id id row0
                                  then apps.set_status apps.StatusEnable row0
                                  else row0) (apps_t s))).
      { apply in_map_iff. exists row. split; [|done].
        unfold apps.by_id. by rewrite Hid, String.eqb_refl. }
      apply (find_none _ _ Hf) in Hin'. unfold apps.by_service in Hin'.
      cbn [apps.set_status App.Service App.Status] in Hin'.
      by rewrite !String.eqb_refl in Hin'.
Qed.

Lemma SetStatus_takes_effect_witness :
  let s' := store (snd (run (apps.SetStatus "abc" "disable") Fixtures.sound
                          Fixtures.store)) in
  fst (run (apps.GetByID "abc") Fixtures.sound s')
  = fst (run (apps.GetByID "abc") Fixtures.sound Fixtures.store)
  /\ fst (run (apps.GetByService "yandex") Fixtures.sound s')
     = Err sql_ErrNoRows.
Proof.
  intros s'.
  destruct (SetStatus_takes_effect Fixtures.sound Fixtures.store "abc")
    as [Hd _].
  destruct (Hd eq_refl Fixtures.sound "yandex") as (_ & _ & Hid).
  split; [exact Hid | reflexivity].
Defined.

(** ** The Exchange ledger *)

(** X6. An Exchange that [exchanges.Create] has stored is returned
    unchanged by [exchanges.Get] under its id, and its id was free
    before: a [Create] under an id in use fails and stores nothing. *)
Theorem exchanges_Create_then_Get env env' s ex :
  (forall id w,
     run (exchanges.Create ex) env s = (Ok id, w) ->
     id = Exchange.ID ex
     /\ exchanges_t s !! id = None
     /\ (fault env' (SelectExchange id) = false ->
         fst (run (exchanges.Get id) env' (store w)) = Ok ex))
  /\ (is_Some (exchanges_t s !! Exchange.ID ex) ->
      snd (run (exchanges.Create ex) env s)
      = {| store := s; log := [InsertExchange ex] |}
      /\ fst (run (exchanges.Create ex) env s)
         = Err (if fault env (InsertExchange ex)
                then driver_error else unique_violation)).
Proof.
  unfold run at 1 3 4. rewrite !exchanges_Create_eq.
  cbn [store log Datatypes.app]. split.
  - intros id w. destruct (fault env _); [done|].
    destruct (exchanges_t s !! Exchange.ID ex) eqn:Hn; [done|].
    intros [= <- <-]. split; [done|]. split; [done|].
    intros Hok. rewrite exchanges_Get_run, Hok. cbn [store exchanges_t].
    rewrite lookup_insert_eq. by destruct ex.
  - intros [r Hr]. rewrite Hr. by destruct (fault env _).
Qed.

Lemma exchanges_Create_then_Get_witness :
  let ex := {| Exchange.ID := "state-9"; Exchange.Service := "vk";
               Exchange.UserID := 7 |} in
  fst (run (exchanges.Get "state-9") Fixtures.sound
         (store (snd (run (exchanges.Create ex) Fixtures.sound
                        Fixtures.store))))
  = Ok ex
  /\ fst (run (exchanges.Create
                 {| Exchange.ID := "state-1"; Exchange.Service := "vk";
                    Exchange.UserID := 7 |}) Fixtures.sound Fixtures.store)
     = Err unique_violation.
Proof.
  intros ex. split.
  - destruct (exchanges_Create_then_Get Fixtures.sound Fixtures.sound
                Fixtures.store ex) as [H _].
    pose (w := snd (run (exchanges.Create ex) Fixtures.sound Fixtures.store)).
    assert (Hrun : run (exchanges.Create ex) Fixtures.sound Fixtures.store
                   = (Ok "state-9", w)) by reflexivity.
    destruct (H "state-9" w Hrun) as (_ & _ & Hg). apply Hg. reflexivity.
  - destruct (exchanges_Create_then_Get Fixtures.sound Fixtures.sound
                Fixtures.store
                {| Exchange.ID := "state-1"; Exchange.Service := "vk";
                   Exchange.UserID := 7 |}) as [_ H].
    destruct H as [_ He]; [by eexists|]. exact He.
Defined.

(** X7. [exchanges.Delete] succeeds whether or not the row exists:
    deleting an id that is not stored leaves the store as it was, and
    after a delete the row is absent, so a second delete of the same id
    changes nothing. *)
Theorem exchanges_Delete_idempotent env s id :
  fault env (DeleteExchange id) = false ->
  let w := snd (run (exchanges.Delete id) env s) in
  fst (run (exchanges.Delete id) env s) = Ok tt
  /\ exchanges_t (store w) !! id = None
  /\ (forall id', id' <> id ->
        exchanges_t (store w) !! id' = exchanges_t s !! id')
  /\ (exchanges_t s !! id = None -> store w = s)
  /\ store (snd (run (exchanges.Delete id) env (store w))) = store w.
Proof.
  intros Hok. unfold run. rewrite !exchanges_Delete_eq, Hok.
  cbn [fst snd store exchanges_t apps_t tokens_t].
  split; [done|]. split; [apply lookup_delete_eq|].
  split; [intros id' Hne; by apply lookup_delete_ne|].
  split.
  - intros Hn. rewrite (delete_id _ _ Hn). by destruct s.
  - by rewrite delete_delete_eq.
Qed.

Lemma exchanges_Delete_idempotent_witness :
  store (snd (run (exchanges.Delete "state-404") Fixtures.sound
                Fixtures.store))
  = Fixtures.store.
Proof.
  destruct (exchanges_Delete_idempotent Fixtures.sound Fixtures.store
              "state-404" eq_refl) as (_ & _ & _ & H & _).
  apply H. reflexivity.
Defined.

(** ** Starting and completing a delegation *)

Lemma GetConf_depends_on_apps env env' s s' service :
  apps_t s = apps_t s' ->
  fault env (SelectAppByService service apps.StatusEnable)
  = fault env' (SelectAppByService service apps.StatusEnable) ->
  fst (run (apps.GetConf service) env s)
  = fst (run (apps.GetConf service) env' s').
Proof.
  intros Ha Hf. unfold run, apps.GetConf.
  rewrite !bind_eq, !send_eq, Hf. destruct (fault env' _); [done|].
  unfold bind, get_store, fail, ret; cbn [store]. rewrite Ha.
  destruct (find _ _); [|done].
  repeat (destruct (String.eqb _ _); [done|]). done.
Qed.

Lemma AuthCodeURL_inv env s service userID url w :
  run (apps.AuthCodeURL service userID) env s = (Ok url, w) ->
  exists conf,
    fst (run (apps.GetConf service) env s) = Ok conf
    /\ url = oauth2.AuthCodeURL conf (random_string env 32)
    /\ apps_t (store w) = apps_t s
    /\ exchanges_t (store w) !! random_string env 32
       = Some {| x_service := service; x_user_id := userID |}.
Proof.
  rewrite AuthCodeURL_eq. cbn zeta.
  destruct (fst (run (apps.GetConf service) env s)) as [conf|]; [|done].
  destruct (rand_fails env); [done|].
  destruct (fault env (InsertExchange _)); [done|].
  destruct (exchanges_t s !! random_string env 32); [done|].
  intros [= <- <-]. exists conf. cbn [store apps_t exchanges_t].
  repeat (split; [done|]). apply lookup_insert_eq.
Qed.

Lemma GetConf_Ok_elsewhere env env' s s' service conf :
  fst (run (apps.GetConf service) env s) = Ok conf ->
  apps_t s' = apps_t s ->
  fault env' (SelectAppByService service apps.StatusEnable) = false ->
  fst (run (apps.GetConf service) env' s') = Ok conf.
Proof.
  intros Hc Ha Hok.
  rewrite (GetConf_depends_on_apps env' env s' s service Ha); [exact Hc|].
  rewrite Hok. unfold run, apps.GetConf in Hc.
  rewrite bind_eq, send_eq in Hc. by destruct (fault env _).
Qed.

Lemma Create_pending env s service userID conf id code tk :
  exchanges_t s !! id = Some {| x_service := service; x_user_id := userID |} ->
  fst (run (apps.GetConf service) env s) = Ok conf ->
  (forall ev, fault env ev = false) ->
  provider_exchange env conf code = Ok tk ->
  exists w r,
    run (tokens.Create code id) env s = (Ok userID, w)
    /\ tokens_t (store w) !! (userID, service) = Some r
    /\ k_access_token r = oauth2.AccessToken tk
    /\ k_refresh_token r = oauth2.RefreshToken tk
    /\ k_expiry r = oauth2.Expiry tk
    /\ k_created_at r = now env
    /\ exchanges_t (store w) !! id = None.
Proof.
  intros Hx Hc Hok Hp.
  rewrite Create_eq, exchanges_Get_run, Hok, Hx. cbn zeta.
  cbn [Exchange.Service Exchange.UserID x_service x_user_id].
  rewrite Hc, Hp, !Hok.
  eexists _, _. split; [reflexivity|].
  cbn [store tokens_t exchanges_t]. split; [apply upsert_lookup|].
  cbn [granted_row Token.Token Token.CreatedAt k_access_token k_refresh_token
       k_expiry k_created_at].
  repeat (split; [done|]). apply lookup_delete_eq.
Qed.

(** X8. The URL returned by [AuthCodeURL] for [(service, userID)] carries
    a state that completes the delegation: [tokens.Create] with that
    state and a code the provider accepts, on a database that answers,
    returns [userID], leaves a Token row under [(userID, service)] with
    the provider's access token, refresh token and expiry, and consumes
    the Exchange. *)
Theorem delegation_round_trip env env' s service userID conf id w code tk :
  run (apps.AuthCodeURL service userID) env s
  = (Ok (oauth2.AuthCodeURL conf id), w) ->
  (forall ev, fault env' ev = false) ->
  provider_exchange env' conf code = Ok tk ->
  exists w' r,
    run (tokens.Create code id) env' (store w) = (Ok userID, w')
    /\ tokens_t (store w') !! (userID, service) = Some r
    /\ k_access_token r = oauth2.AccessToken tk
    /\ k_refresh_token r = oauth2.RefreshToken tk
    /\ k_expiry r = oauth2.Expiry tk
    /\ k_created_at r = now env'
    /\ exchanges_t (store w') !! id = None.
Proof.
  intros Hrun Hok Hp.
  apply AuthCodeURL_inv in Hrun as (conf0 & Hc & Hurl & Ha & Hx).
  injection Hurl as -> ->.
  apply (Create_pending env' (store w) service userID conf0); try done.
  by apply (GetConf_Ok_elsewhere env env' s).
Qed.

Lemma delegation_round_trip_witness :
  exists w',
    run (tokens.Create "c1" "0123456789abcdefghijklmnopqrstuv") Fixtures.sound
      (store (snd (run (apps.AuthCodeURL "yandex" 42) Fixtures.sound
                     Fixtures.fresh)))
    = (Ok 42, w').
Proof.
  destruct (delegation_round_trip Fixtures.sound Fixtures.sound Fixtures.fresh
              "yandex" 42 _ _ _ "c1" (Fixtures.granted "c1") eq_refl
              (fun _ => eq_refl) eq_refl) as (w' & r & Hrun & _).
  exists w'. exact Hrun.
Defined.

Lemma AuthCodeURL_failure_store env s service userID e w :
  run (apps.AuthCodeURL service userID) env s = (Err e, w) -> store w = s.
Proof.
  rewrite AuthCodeURL_eq. cbn zeta. repeat case_match; by intros [= <- <-].
Qed.

(** X9. [AuthCodeURL] stores an Exchange only when it succeeds: a call
    that returns an error leaves the store as it was, and when the
    client configuration cannot be resolved no random bytes are drawn
    and no [INSERT] is sent. *)
Theorem AuthCodeURL_failure_stores_nothing env s service userID e w :
  run (apps.AuthCodeURL service userID) env s = (Err e, w) ->
  store w = s
  /\ (fst (run (apps.GetConf service) env s) = Err e ->
      log w = [SelectAppByService service apps.StatusEnable]).
Proof.
  rewrite AuthCodeURL_eq. cbn zeta.
  destruct (fst (run (apps.GetConf service) env s)).
  - destruct (rand_fails env); [by intros [= <- <-]|].
    destruct (fault env _); [by intros [= <- <-]|].
    destruct (exchanges_t s !! _); [by intros [= <- <-] | done].
  - by intros [= <- <-].
Qed.

Lemma AuthCodeURL_failure_stores_nothing_witness :
  store (snd (run (apps.AuthCodeURL "github" 42) Fixtures.sound
                Fixtures.store))
  = Fixtures.store.
Proof.
  exact (proj1 (AuthCodeURL_failure_stores_nothing Fixtures.sound
                  Fixtures.store "github" 42 apps_ErrService _ eq_refl)).
Defined.

Lemma tokens_Create_failure_tokens env s code exchangeID e w :
  run (tokens.Create code exchangeID) env s = (Err e, w) ->
  tokens_t (store w) = tokens_t s.
Proof.
  rewrite Create_eq. cbn zeta. repeat case_match; by intros [= <- <-].
Qed.

(** X10. A [tokens.Create] that fails writes no Token row and changes no
    App; unless it has got as far as the [DELETE] of the Exchange (the
    lookups and the provider exchange succeeded and only the token write
    failed), it leaves the whole store as it was, the Exchange
    included. *)
Theorem tokens_Create_failure env s code exchangeID e w :
  run (tokens.Create code exchangeID) env s = (Err e, w) ->
  tokens_t (store w) = tokens_t s
  /\ apps_t (store w) = apps_t s
  /\ (~ In (DeleteExchange exchangeID) (log w) -> store w = s)
  /\ (In (DeleteExchange exchangeID) (log w) ->
      e = driver_error
      /\ exists row, last (log w) = Some (UpsertToken row)
                     /\ fault env (UpsertToken row) = true).
Proof.
  rewrite Create_eq. cbn zeta.
  destruct (fst (run (exchanges.Get exchangeID) env s)) as [ex|].
  2: { intros [= <- <-]. cbn. repeat (split; [done|]).
       intros [H|[]]. discriminate H. }
  destruct (fst (run (apps.GetConf _) env s)) as [conf|].
  2: { intros [= <- <-]. cbn. repeat (split; [done|]).
       intros [H|[H|[]]]; discriminate H. }
  destruct (provider_exchange env conf code) as [tk|].
  2: { intros [= <- <-]. cbn. repeat (split; [done|]).
       intros [H|[H|[H|[]]]]; discriminate H. }
  destruct (fault env (UpsertToken _)) eqn:Hu; [|done].
  intros [= <- <-]. cbn [store log tokens_t apps_t].
  repeat (split; [done|]). split.
  - intros Hn. exfalso. apply Hn. simpl. tauto.
  - intros _. split; [done|]. by eexists.
Qed.

Lemma tokens_Create_failure_witness :
  store (snd (run (tokens.Create "c1" "state-404") Fixtures.sound
                Fixtures.store))
  = Fixtures.store.
Proof.
  destruct (tokens_Create_failure Fixtures.sound Fixtures.store "c1"
              "state-404" sql_ErrNoRows _ eq_refl) as (_ & _ & H & _).
  apply H. vm_compute. intros [H1|[]]. discriminate H1.
Defined.

(** X11. A [Refresh] that fails, at whatever step, leaves the store as
    it was. *)
Theorem Refresh_failure_changes_nothing env s userID service e w :
  run (tokens.Refresh userID service) env s = (Err e, w) ->
  store w = s.
Proof.
  rewrite Refresh_eq. cbn zeta.
  repeat case_match; by intros [= <- <-].
Qed.

Lemma Refresh_failure_changes_nothing_witness :
  store (snd (run (tokens.Refresh "42" "yandex") Scenario.update_fails
                Fixtures.store))
  = Fixtures.store.
Proof.
  pose (w := snd (run (tokens.Refresh "42" "yandex") Scenario.update_fails
                    Fixtures.store)).
  assert (Hrun : run (tokens.Refresh "42" "yandex") Scenario.update_fails
                   Fixtures.store = (Err driver_error, w)) by reflexivity.
  exact (Refresh_failure_changes_nothing Scenario.update_fails Fixtures.store
           "42" "yandex" driver_error w Hrun).
Defined.

(** ** The Token store *)

Lemma tokens_Get_run userID service env s :
  run (tokens.Get userID service) env s =
  (fst (run (tokens.select userID service) env s),
   {| store := s; log := [SelectToken userID service] |}).
Proof.
  unfold run at 1, tokens.Get. rewrite bind_eq, tokens_select_frame.
  cbn [store log Datatypes.app].
  by destruct (fst (run (tokens.select userID service) env s)).
Qed.

(** The calls other than [tokens.Create] and [tokens.Refresh] leave
    [auth.tokens] alone. *)
Lemma perform_tokens c env s :
  match c with
  | TokensCreate _ _ | TokensRefresh _ _ => True
  | _ => tokens_t (store (perform c env s)) = tokens_t s
  end.
Proof.
  destruct c as [a|i st|i|sv|sv uid|u sv|u sv|code i]; cbn [perform];
    try done.
  - rewrite apps_Create_eq. cbn zeta. repeat case_match; reflexivity.
  - rewrite SetStatus_eq. cbn zeta. repeat case_match; reflexivity.
  - by rewrite GetByID_run.
  - by rewrite GetByService_run.
  - rewrite AuthCodeURL_eq. cbn zeta. repeat case_match; reflexivity.
  - by rewrite tokens_Get_run.
Qed.

Lemma perform_keeps_token c env s (k : Z * string) r :
  tokens_t s !! k = Some r ->
  exists r',
    tokens_t (store (perform c env s)) !! k = Some r'
    /\ k_token_type r' = k_token_type r.
Proof.
  intros Hr. pose proof (perform_tokens c env s) as Hc.
  destruct c as [a|i st|i|sv|sv uid|u sv|u sv|code i];
    try (rewrite Hc; by exists r); cbn [perform].
  - rewrite Refresh_eq. cbn zeta.
    destruct (fst (run (tokens.select u sv) env s)); [|by exists r].
    destruct (fst (run (apps.GetConf _) env s)); [|by exists r].
    destruct (provider_token env _ _); [|by exists r].
    destruct (fault env _); [by exists r|].
    destruct (int4in env u); [|by exists r].
    cbn [snd store tokens_t]. rewrite update_user_lookup, Hr. cbn [fmap
      option_fmap option_map].
    eexists. split; [reflexivity|]. by destruct (bool_decide _).
  - rewrite Create_eq. cbn zeta.
    destruct (fst (run (exchanges.Get i) env s)) as [ex|]; [|by exists r].
    destruct (fst (run (apps.GetConf _) env s)); [|by exists r].
    destruct (provider_exchange env _ code) as [tk|]; [|by exists r].
    destruct (fault env (UpsertToken _)); [by exists r|].
    cbn [snd store tokens_t].
    destruct (decide (k = (Exchange.UserID ex, Exchange.Service ex)))
      as [->|Hne].
    + pose proof (upsert_lookup (granted_row env ex tk) (tokens_t s)) as Hl.
      cbn [granted_row Token.UserID Token.Service] in Hl.
      rewrite Hr in Hl. eexists. split; [exact Hl | reflexivity].
    + exists r. split; [|done].
      rewrite upsert_lookup_ne; [done|]. exact Hne.
Qed.

(** X12. Token rows are never deleted and their token type is never
    rewritten: a row stored under [(userID, service)] is still stored
    under that key after any history of calls, with the token type it
    had. *)
Theorem token_rows_persist h : forall s (k : Z * string) r,
  tokens_t s !! k = Some r ->
  exists r',
    tokens_t (replay h s) !! k = Some r'
    /\ k_token_type r' = k_token_type r.
Proof.
  induction h as [|[env c] h IH]; intros s k r Hr; [by exists r|].
  cbn [replay].
  destruct (perform_keeps_token c env s k r Hr) as (r1 & Hr1 & Ht1).
  destruct (IH _ k r1 Hr1) as (r' & Hr' & Ht').
  exists r'. split; [done|]. congruence.
Qed.

Lemma token_rows_persist_witness :
  exists r',
    tokens_t
      (replay [(Fixtures.sound, TokensCreate "c9" "state-1");
               (Fixtures.sound, TokensRefresh "42" "google")]
         Fixtures.store) !! (42, "yandex") = Some r'
    /\ k_token_type r' = "bearer".
Proof.
  exact (token_rows_persist
           [(Fixtures.sound, TokensCreate "c9" "state-1");
            (Fixtures.sound, TokensRefresh "42" "google")]
           Fixtures.store (42, "yandex") (Fixtures.stored "at-yandex")
           eq_refl).
Defined.

(** ** Two creates for the same pair *)

Lemma replay_keeps_token_type h : forall s (k : Z * string) r,
  tokens_t s !! k = Some r ->
  exists r',
    tokens_t (replay h s) !! k = Some r'
    /\ k_token_type r' = k_token_type r.
Proof.
  induction h as [|[env c] h IH]; intros s k r Hr; [by exists r|].
  cbn [replay].
  destruct (perform_keeps_token c env s k r Hr) as (r1 & Hr1 & Ht1).
  destruct (IH _ k r1 Hr1) as (r' & Hr' & Ht').
  exists r'. split; [done|]. congruence.
Qed.

(** C2, amended. After any two successful creates for the same
    [(userID, service)] pair, whatever calls happen between them, the
    stored Token row has the access token, refresh token and expiry that
    the provider returned to the second create for the client
    configuration [GetConf] resolved then, and [createdAt] of the second
    call; its token type is the one the row had after the first create:
    the type returned by the first exchange when the first create
    inserted the row, the type the row already had otherwise. *)
Theorem Create_twice_last_material env1 env2 s h code1 code2 id1 id2
    userID w1 w2 ex1 ex2 :
  run (tokens.Create code1 id1) env1 s = (Ok userID, w1) ->
  run (tokens.Create code2 id2) env2 (replay h (store w1)) = (Ok userID, w2) ->
  fst (run (exchanges.Get id1) env1 s) = Ok ex1 ->
  fst (run (exchanges.Get id2) env2 (replay h (store w1))) = Ok ex2 ->
  Exchange.Service ex1 = Exchange.Service ex2 ->
  exists conf1 tk1 conf2 tk2 r1,
    fst (run (apps.GetConf (Exchange.Service ex1)) env1 s) = Ok conf1
    /\ provider_exchange env1 conf1 code1 = Ok tk1
    /\ fst (run (apps.GetConf (Exchange.Service ex2)) env2
              (replay h (store w1))) = Ok conf2
    /\ provider_exchange env2 conf2 code2 = Ok tk2
    /\ tokens_t (store w1) !! (userID, Exchange.Service ex1) = Some r1
    /\ k_token_type r1 =
       match tokens_t s !! (userID, Exchange.Service ex1) with
       | Some old => k_token_type old
       | None => oauth2.TokenType tk1
       end
    /\ tokens_t (store w2) !! (userID, Exchange.Service ex1) =
       Some {| k_token_type := k_token_type r1;
               k_access_token := oauth2.AccessToken tk2;
               k_expiry := oauth2.Expiry tk2;
               k_refresh_token := oauth2.RefreshToken tk2;
               k_created_at := now env2 |}.
Proof.
  intros Hrun1 Hrun2 Hg1 Hg2 Hsvc.
  apply Create_inv in Hrun1
    as (e1 & conf1 & tk1 & Hg1' & Hc1 & Hp1 & _ & Hu1 & ->).
  apply Create_inv in Hrun2
    as (e2 & conf2 & tk2 & Hg2' & Hc2 & Hp2 & _ & Hu2 & ->).
  rewrite Hg1 in Hg1'. injection Hg1' as <-.
  rewrite Hg2 in Hg2'. injection Hg2' as <-.
  cbn [store tokens_t] in *.
  set (s1 := {| apps_t := apps_t s;
                exchanges_t := _;
                tokens_t := tokens.upsert (granted_row env1 ex1 tk1)
                              (tokens_t s) |}) in *.
  pose proof (upsert_lookup (granted_row env1 ex1 tk1) (tokens_t s)) as Hl1.
  cbn [granted_row Token.Token Token.CreatedAt Token.UserID Token.Service]
    in Hl1.
  destruct (replay_keeps_token_type h s1 _ _ Hl1) as (r' & Hr' & Ht').
  pose proof (upsert_lookup (granted_row env2 ex2 tk2)
                (tokens_t (replay h s1))) as Hl2.
  cbn [granted_row Token.Token Token.CreatedAt Token.UserID Token.Service]
    in Hl2.
  rewrite <- Hsvc, <- Hu2, Hu1 in Hl2. rewrite Hr' in Hl2.
  rewrite Ht' in Hl2. subst userID.
  eexists conf1, tk1, conf2, tk2, _.
  split; [done|]. split; [done|]. split; [done|]. split; [done|].
  split; [exact Hl1|]. split; [reflexivity|]. exact Hl2.
Qed.

Lemma Create_twice_last_material_witness :
  let h := [(Fixtures.sound, TokensRefresh "42" "yandex");
            (Fixtures.sound, AppsAuthCodeURL "google" 42)] in
  exists w1 w2,
    run (tokens.Create "c1" "state-1") Fixtures.sound Fixtures.pending
    = (Ok 42, w1)
    /\ tokens_t (replay h (store w1)) !! (42, "yandex")
       = Some {| k_token_type := "type-c1";
                 k_access_token := oauth2.AccessToken Fixtures.rotated;
                 k_expiry := oauth2.Expiry Fixtures.rotated;
                 k_refresh_token := oauth2.RefreshToken Fixtures.rotated;
                 k_created_at := 1000 |}
    /\ run (tokens.Create "c2" "state-2") Fixtures.sound
         (replay h (store w1)) = (Ok 42, w2)
    /\ tokens_t (store w2) !! (42, "yandex")
       = Some {| k_token_type := "type-c1"; k_access_token := "at-c2";
                 k_expiry := 3600; k_refresh_token := "rt-c2";
                 k_created_at := 1000 |}.
Proof.
  intros h.
  pose (w1 := snd (run (tokens.Create "c1" "state-1") Fixtures.sound
                     Fixtures.pending)).
  pose (w2 := snd (run (tokens.Create "c2" "state-2") Fixtures.sound
                     (replay h (store w1)))).
  assert (H1 : run (tokens.Create "c1" "state-1") Fixtures.sound
                 Fixtures.pending = (Ok 42, w1)) by reflexivity.
  assert (H2 : run (tokens.Create "c2" "state-2") Fixtures.sound
                 (replay h (store w1)) = (Ok 42, w2)) by reflexivity.
  destruct (Create_twice_last_material Fixtures.sound Fixtures.sound
              Fixtures.pending h "c1" "c2" "state-1" "state-2" 42 w1 w2
              {| Exchange.ID := "state-1"; Exchange.Service := "yandex";
                 Exchange.UserID := 42 |}
              {| Exchange.ID := "state-2"; Exchange.Service := "yandex";
                 Exchange.UserID := 42 |}
              H1 H2 eq_refl eq_refl eq_refl)
    as (conf1 & tk1 & conf2 & tk2 & r1 & Hc1 & Hp1 & Hc2 & Hp2 & Hr1 & Ht
        & Hl).
  vm_compute in Hc1. injection Hc1 as <-.
  vm_compute in Hc2. injection Hc2 as <-.
  vm_compute in Hp1. injection Hp1 as <-.
  vm_compute in Hp2. injection Hp2 as <-.
  change (k_token_type r1 = "type-c1") in Ht. rewrite Ht in Hl.
  exists w1, w2. split; [exact H1|]. split; [reflexivity|].
  split; [exact H2 | exact Hl].
Defined.

(** X13. The Token written by a successful [tokens.Create] is what
    [tokens.Get] returns for the Exchange's user and service: user,
    service, the provider's access token, refresh token and expiry, and
    the time of the create. *)
Theorem tokens_Create_then_Get env s code exchangeID uid w :
  run (tokens.Create code exchangeID) env s = (Ok uid, w) ->
  exists exchange conf tk,
    fst (run (exchanges.Get exchangeID) env s) = Ok exchange
    /\ provider_exchange env conf code = Ok tk
    /\ forall env' userID,
         int4in env' userID = Some uid ->
         fault env' (SelectToken userID (Exchange.Service exchange)) = false ->
         exists token,
           fst (run (tokens.Get userID (Exchange.Service exchange)) env'
                  (store w)) = Ok token
           /\ Token.UserID token = uid
           /\ Token.Service token = Exchange.Service exchange
           /\ oauth2.AccessToken (Token.Token token) = oauth2.AccessToken tk
           /\ oauth2.RefreshToken (Token.Token token) = oauth2.RefreshToken tk
           /\ oauth2.Expiry (Token.Token token) = oauth2.Expiry tk
           /\ Token.CreatedAt token = now env.
Proof.
  intros Hrun.
  apply Create_inv in Hrun as (ex & conf & tk & Hg & _ & Hp & _ & -> & ->).
  exists ex, conf, tk. split; [done|]. split; [done|].
  intros env' userID Hid Hok.
  rewrite tokens_Get_run, tokens_select_eq, Hok, Hid. cbn [fst store tokens_t].
  pose proof (upsert_lookup (granted_row env ex tk) (tokens_t s)) as Hl.
  cbn [granted_row Token.UserID Token.Service Token.Token Token.CreatedAt]
    in Hl.
  rewrite Hl. eexists. split; [reflexivity|]. by cbn.
Qed.

Lemma tokens_Create_then_Get_witness :
  exists token,
    fst (run (tokens.Get "42" "yandex") Fixtures.sound
           (store (snd (run (tokens.Create "c1" "state-1") Fixtures.sound
                          Fixtures.pending)))) = Ok token
    /\ oauth2.AccessToken (Token.Token token) = "at-c1".
Proof.
  pose (w := snd (run (tokens.Create "c1" "state-1") Fixtures.sound
                    Fixtures.pending)).
  assert (Hrun : run (tokens.Create "c1" "state-1") Fixtures.sound
                   Fixtures.pending = (Ok 42, w)) by reflexivity.
  destruct (tokens_Create_then_Get Fixtures.sound Fixtures.pending "c1"
              "state-1" 42 w Hrun) as (ex & conf & tk & Hg & Hp & H).
  vm_compute in Hg. injection Hg as <-.
  destruct (H Fixtures.sound "42" eq_refl eq_refl)
    as (token & Ht & _ & _ & Ha & _).
  exists token. split; [exact Ht|]. rewrite Ha.
  cbn in Hp. injection Hp as <-. reflexivity.
Defined.

Lemma Refresh_store_witness :
  exchanges_t
    (store (snd (run (tokens.Refresh "42" "yandex") Fixtures.sound
                   Fixtures.store)))
  = exchanges_t Fixtures.store.
Proof.
  pose (w := snd (run (tokens.Refresh "42" "yandex") Fixtures.sound
                    Fixtures.store)).
  assert (Hrun : run (tokens.Refresh "42" "yandex") Fixtures.sound
                   Fixtures.store
                 = (Ok (tokens.scan 42 "yandex" (Fixtures.stored "at-yandex")),
                    w)) by reflexivity.
  destruct (Refresh_store Fixtures.sound Fixtures.store "42" "yandex" _ w Hrun)
    as (uid & conf & newToken & _ & _ & _ & Hx & _).
  exact Hx.
Defined.

(** * Properties of the HTTP layer *)

(** ** Pagination *)

Lemma wrap_small z : - 2 ^ 63 <= z < 2 ^ 63 -> wrap z = z.
Proof. intros Hz. unfold wrap. rewrite Z.mod_small by lia. lia. Qed.

(** X15. For a non-negative total, a positive page size and a page from
    1 on, [SetHeaders] reports as [X-Total-Pages] the number of pages
    needed for [Total] entries (the quotient rounded up), and adds
    [X-Prev-Page] exactly when the page is beyond the first and
    [X-Next-Page] exactly when it is before the last. *)
Theorem SetHeaders_pages p :
  0 <= httphelpers.Total p <= int_max ->
  0 < httphelpers.PerPage p <= int_max ->
  1 <= httphelpers.Page p < int_max ->
  exists totalPages,
    httphelpers.Total p <= totalPages * httphelpers.PerPage p
    /\ totalPages * httphelpers.PerPage p
       < httphelpers.Total p + httphelpers.PerPage p
    /\ httphelpers.SetHeaders p =
       Ok ([("X-Total", Itoa (httphelpers.Total p));
            ("X-Total-Pages", Itoa totalPages);
            ("X-Per-Page", Itoa (httphelpers.PerPage p));
            ("X-Page", Itoa (httphelpers.Page p))]
           ++ (if (1 <? httphelpers.Page p)%Z
               then [("X-Prev-Page", Itoa (httphelpers.Page p - 1))]
               else [])
           ++ (if (httphelpers.Page p <? totalPages)%Z
               then [("X-Next-Page", Itoa (httphelpers.Page p + 1))]
               else []))%list.
Proof.
  destruct p as [total perPage page]. cbn [httphelpers.Total
    httphelpers.PerPage httphelpers.Page]. unfold int_max.
  intros Ht Hp Hg. unfold httphelpers.SetHeaders.
  cbn [httphelpers.Total httphelpers.PerPage httphelpers.Page].
  destruct (Z.eqb_spec perPage 0) as [?|_]; [lia|].
  rewrite Z.quot_div_nonneg, Z.rem_mod_nonneg by lia.
  pose proof (Z.div_mod total perPage ltac:(lia)) as Hdm.
  pose proof (Z.mod_pos_bound total perPage ltac:(lia)) as Hm.
  assert (Hq : 0 <= total / perPage <= total).
  { split; [apply Z.div_pos; lia|].
    apply Z.div_le_upper_bound; nia. }
  rewrite (wrap_small (total / perPage)) by lia.
  rewrite (wrap_small (page - 1)), (wrap_small (page + 1)) by lia.
  exists (if (total mod perPage >? 0)%Z then total / perPage + 1
          else total / perPage).
  destruct (Z.gtb_spec (total mod perPage) 0) as [Hr|Hr].
  - rewrite (wrap_small (total / perPage + 1)) by lia.
    split; [nia|]. split; [nia|].
    rewrite Z.gtb_ltb.
    destruct (1 <? page)%Z, (page <? total / perPage + 1)%Z; reflexivity.
  - split; [nia|]. split; [nia|].
    rewrite Z.gtb_ltb.
    destruct (1 <? page)%Z, (page <? total / perPage)%Z; reflexivity.
Qed.

Lemma SetHeaders_pages_witness :
  httphelpers.SetHeaders
    {| httphelpers.Total := 25; httphelpers.PerPage := 10;
       httphelpers.Page := 2 |}
  = Ok [("X-Total", "25"); ("X-Total-Pages", "3"); ("X-Per-Page", "10");
        ("X-Page", "2"); ("X-Prev-Page", "1"); ("X-Next-Page", "3")].
Proof.
  destruct (SetHeaders_pages
              {| httphelpers.Total := 25; httphelpers.PerPage := 10;
                 httphelpers.Page := 2 |})
    as (tp & H1 & H2 & Hs); try (unfold int_max; simpl; lia).
  reflexivity.
Defined.

(** Case analysis on the tests of a handler or helper, keeping what
    each test decided as a hypothesis in arithmetic form. *)
Ltac split_tests :=
  repeat match goal with
         | |- context [Atoi ?lib ?s] => destruct (Atoi lib s) as [? ?]
         | |- context [if ?b then _ else _] => destruct b eqn:?
         | _ => progress cbn [httphelpers.form_Page httphelpers.form_PerPage
                              httphelpers.Total httphelpers.PerPage
                              httphelpers.Page negb andb orb fst snd]
         end.

Ltac tests_to_Z :=
  cbn [httphelpers.form_Page httphelpers.form_PerPage httphelpers.Total
       httphelpers.PerPage httphelpers.Page negb] in *;
  repeat match goal with
         | H : (_ && _) = true |- _ => apply andb_true_iff in H as [? ?]
         | H : (_ && _) = false |- _ => apply andb_false_iff in H as [?|?]
         | H : (_ || _) = false |- _ => apply orb_false_iff in H as [? ?]
         | H : (_ <? _)%Z = true |- _ => apply Z.ltb_lt in H
         | H : (_ <? _)%Z = false |- _ => apply Z.ltb_ge in H
         | H : (_ >? _)%Z = true |- _ => rewrite Z.gtb_ltb in H
         | H : (_ >? _)%Z = false |- _ => rewrite Z.gtb_ltb in H
         | H : (_ =? _)%Z = true |- _ => apply Z.eqb_eq in H
         | H : (_ =? _)%Z = false |- _ => apply Z.eqb_neq in H
         | H : bool_decide _ = _ |- _ => vm_compute in H; try discriminate H
         end.


Lemma Paginate_next lib r p :
  httphelpers.Paginate lib r = Next p ->
  httphelpers.Total p = 0
  /\ 1 <= httphelpers.Page p
  /\ 0 <= httphelpers.PerPage p <= 1000
  /\ (FormValue r "page" = "" -> httphelpers.Page p = 1)
  /\ (FormValue r "per_page" = "" -> httphelpers.PerPage p = 0).
Proof.
  unfold httphelpers.Paginate, httphelpers.decodePaginateForm,
    httphelpers.maxPerPage, httphelpers.defaultPage.
  cbn zeta. cbn [httphelpers.form_Page httphelpers.form_PerPage].
  destruct (String.eqb_spec (FormValue r "page") "") as [Hp|Hp];
    destruct (String.eqb_spec (FormValue r "per_page") "") as [Hpp|Hpp];
    split_tests; intros [= <-]; tests_to_Z;
    cbn [httphelpers.Total httphelpers.PerPage httphelpers.Page];
    repeat split; try lia; try done.
Qed.




(** X17. A request without [per_page] passes [Paginate] with a page size
    of 0, and [SetHeaders] on the resulting Paginator, whatever its
    total, panics on the division by the page size. *)
Theorem SetHeaders_panics_without_per_page lib r p total :
  httphelpers.Paginate lib r = Next p ->
  FormValue r "per_page" = "" ->
  httphelpers.PerPage p = 0
  /\ httphelpers.SetHeaders
       {| httphelpers.Total := total;
          httphelpers.PerPage := httphelpers.PerPage p;
          httphelpers.Page := httphelpers.Page p |}
     = Err runtime_panic.
Proof.
  intros Hp Hpp.
  destruct (Paginate_next lib r p Hp) as (_ & _ & _ & _ & H0).
  specialize (H0 Hpp).
  split; [done|]. unfold httphelpers.SetHeaders. cbn. by rewrite H0.
Qed.

Lemma SetHeaders_panics_without_per_page_witness :
  httphelpers.SetHeaders
    {| httphelpers.Total := 25; httphelpers.PerPage := 0;
       httphelpers.Page := 3 |}
  = Err runtime_panic.
Proof.
  exact (proj2 (SetHeaders_panics_without_per_page Scenario.lib
                  (Scenario.request [] [("page", "3")])
                  {| httphelpers.Total := 0; httphelpers.PerPage := 0;
                     httphelpers.Page := 3 |} 25 eq_refl eq_refl)).
Defined.

(** X18. For a page and a page size that passed [Paginate], [Skip] is
    the number of entries before the page, [(Page - 1) * PerPage], and
    [Skip + Limit] the number up to its end, as long as the page is at
    most 9223372036854775; for the largest page an [int] holds and an
    even page size the product wraps around and [Skip] is negative. *)
Theorem Skip_exact_then_wraps p :
  0 <= httphelpers.PerPage p <= 1000 ->
  (1 <= httphelpers.Page p <= 9223372036854775 ->
   httphelpers.Skip p = (httphelpers.Page p - 1) * httphelpers.PerPage p
   /\ 0 <= httphelpers.Skip p
   /\ httphelpers.Skip p + httphelpers.Limit p
      = httphelpers.Page p * httphelpers.PerPage p)
  /\ (httphelpers.Page p = int_max ->
      Z.even (httphelpers.PerPage p) = true ->
      httphelpers.Skip p = - 2 * httphelpers.PerPage p).
Proof.
  destruct p as [total perPage page].
  unfold httphelpers.Skip, httphelpers.Limit, int_max.
  cbn [httphelpers.PerPage httphelpers.Page]. intros Hpp. split.
  - intros Hp. rewrite (wrap_small (page - 1)) by lia.
    assert (Hb : 0 <= (page - 1) * perPage <= 9223372036854774 * 1000).
    { split; [apply Z.mul_nonneg_nonneg; lia|].
      apply Z.mul_le_mono_nonneg; lia. }
    rewrite wrap_small by lia. lia.
  - intros -> He. rewrite (wrap_small (2 ^ 63 - 1 - 1)) by lia.
    apply Z.even_spec in He as [k ->]. unfold wrap.
    replace ((2 ^ 63 - 1 - 1) * (2 * k) + 2 ^ 63)
      with ((- 4 * k + 2 ^ 63) + k * 2 ^ 64) by lia.
    rewrite Z.mod_add by lia. rewrite Z.mod_small by lia. lia.
Qed.

Lemma Skip_exact_then_wraps_witness :
  httphelpers.Skip
    {| httphelpers.Total := 0; httphelpers.PerPage := 10;
       httphelpers.Page := 3 |} = 20
  /\ httphelpers.Skip
       {| httphelpers.Total := 0; httphelpers.PerPage := 10;
          httphelpers.Page := int_max |} = -20.
Proof.
  split.
  - destruct (Skip_exact_then_wraps
                {| httphelpers.Total := 0; httphelpers.PerPage := 10;
                   httphelpers.Page := 3 |}) as [H _];
      [simpl; lia|].
    destruct H as (H & _); [simpl; lia|]. exact H.
  - destruct (Skip_exact_then_wraps
                {| httphelpers.Total := 0; httphelpers.PerPage := 10;
                   httphelpers.Page := int_max |}) as [_ H];
      [simpl; lia|].
    exact (H eq_refl eq_refl).
Defined.

(** ** Access control *)

Lemma size_list_to_set_pos (roles : list string) :
  (0 < size (list_to_set roles : gset string))%nat <-> roles <> [].
Proof.
  destruct roles as [|x roles].
  - rewrite list_to_set_nil, size_empty. split; [lia | done].
  - split; [done|]. intros _.
    destruct (size (list_to_set (x :: roles) : gset string)) eqn:Hs; [|lia].
    apply size_empty_iff in Hs. exfalso.
    assert (Hx : x ∈ (list_to_set (x :: roles) : gset string))
      by (apply elem_of_list_to_set; left).
    rewrite Hs in Hx. by apply not_elem_of_empty in Hx.
Qed.

(** X19. [AccessController] with a list of roles lets a request through
    exactly when the role of the request is in the list, whatever the
    method ("admin" has no privilege of its own); with no roles it lets
    through every request whose method is not POST, PUT or DELETE, and
    those only for the role "admin". A request that is not let through
    is answered 403. *)
Theorem AccessController_decision roles r :
  (roles <> [] ->
   (httphelpers.AccessController roles r = Next tt
    <-> In (httphelpers.GetUserRole r) roles))
  /\ (roles = [] ->
      (httphelpers.AccessController roles r = Next tt
       <-> (Method r <> "POST" /\ Method r <> "PUT" /\ Method r <> "DELETE")
           \/ httphelpers.GetUserRole r = "admin"))
  /\ (httphelpers.AccessController roles r <> Next tt ->
      httphelpers.AccessController roles r
      = Responded
          {| StatusCode := 403;
             Body := ErrorResponse (errors_New "403 Forbidden") |}).
Proof.
  unfold httphelpers.AccessController. cbn zeta. split; [|split].
  - intros Hr. apply size_list_to_set_pos in Hr.
    rewrite (bool_decide_eq_true_2 _ Hr).
    destruct (decide (httphelpers.GetUserRole r
                      ∈ (list_to_set roles : gset string))) as [Hin|Hin].
    + rewrite (bool_decide_eq_true_2 _ Hin). cbn.
      split; [|done]. intros _.
      apply list_elem_of_In. apply elem_of_list_to_set in Hin. exact Hin.
    + rewrite (bool_decide_eq_false_2 _ Hin). cbn.
      split; [done|]. intros Hi. exfalso.
      apply Hin. apply elem_of_list_to_set. by apply list_elem_of_In.
  - intros ->. rewrite list_to_set_nil, size_empty.
    rewrite bool_decide_eq_false_2 by lia.
    unfold httphelpers.protectedHTTPMethods, http.MethodPost, http.MethodPut,
      http.MethodDelete.
    destruct (decide (Method r ∈ ({["POST"; "PUT"; "DELETE"]} : gset string)))
      as [Hin|Hin].
    + rewrite (bool_decide_eq_true_2 _ Hin).
      destruct (String.eqb_spec (httphelpers.GetUserRole r) "admin")
        as [Ha|Ha]; cbn.
      * split; [by right | done].
      * split; [done|]. intros [(H1 & H2 & H3)|H]; [|done].
        rewrite !elem_of_union, !elem_of_singleton in Hin. tauto.
    + rewrite (bool_decide_eq_false_2 _ Hin). cbn.
      split; [|done]. intros _. left.
      rewrite !elem_of_union, !elem_of_singleton in Hin. tauto.
  - repeat case_match; cbn; done.
Qed.

Lemma AccessController_decision_witness :
  httphelpers.AccessController ["editor"]
    {| Method := "GET"; URLParam := fun _ => ""; FormValue := fun _ => "";
       UserRole := Some "admin"; Decoded := None |}
  <> Next tt.
Proof.
  destruct (AccessController_decision ["editor"]
              {| Method := "GET"; URLParam := fun _ => "";
                 FormValue := fun _ => ""; UserRole := Some "admin";
                 Decoded := None |}) as [H _].
  intros Hn. apply H in Hn; [|discriminate].
  simpl in Hn. destruct Hn as [Hn|[]]. discriminate Hn.
Defined.

(** ** Validation errors *)

Lemma message_cases err :
  httphelpers.message err = "value is required"
  \/ httphelpers.message err = "empty map specified"
  \/ httphelpers.message err = "empty list specified"
  \/ httphelpers.message err = "invalid value".
Proof.
  unfold httphelpers.message.
  destruct (String.eqb (Tag err) "required"); [cbn; tauto|].
  destruct (String.eqb (Tag err) "gt"); [|cbn; tauto].
  destruct (String.eqb (Param err) "0"); [|cbn; tauto].
  destruct (Kind err); cbn; tauto.
Qed.

Lemma fold_errors_other l : forall (acc : gmap string string) f,
  (forall e, In e l -> Field e <> f) ->
  fold_left (fun errs err => <[Field err := httphelpers.message err]> errs)
    l acc !! f = acc !! f.
Proof.
  induction l as [|e l IH]; intros acc f Hf; [done|]. cbn [fold_left].
  rewrite IH by (intros e' He'; apply Hf; by right).
  apply lookup_insert_ne, Hf. by left.
Qed.

Lemma fold_errors_origin l : forall (acc : gmap string string) f m,
  fold_left (fun errs err => <[Field err := httphelpers.message err]> errs)
    l acc !! f = Some m ->
  acc !! f = Some m \/ exists e, In e l /\ m = httphelpers.message e.
Proof.
  induction l as [|e l IH]; intros acc f m Hm; [by left|].
  cbn [fold_left] in Hm. apply IH in Hm as [Hm|(e' & He' & ->)].
  - rewrite lookup_insert in Hm. case_decide.
    + right. exists e. split; [by left | congruence].
    + by left.
  - right. exists e'. split; [by right | done].
Qed.

(** X20. [ValidateStruct] files one message under each field the
    validator reports and nothing under any other field; the message is
    that of the last report for the field, and it is always one of
    "value is required", "empty map specified", "empty list specified"
    and "invalid value". *)
Theorem ValidateStruct_messages l :
  exists errs,
    httphelpers.ValidateStruct (Some l) = Some errs
    /\ (forall f, (forall e, In e l -> Field e <> f) -> errs !! f = None)
    /\ (forall l1 err l2,
          l = (l1 ++ err :: l2)%list ->
          (forall e, In e l2 -> Field e <> Field err) ->
          errs !! Field err = Some (httphelpers.message err))
    /\ (forall f m,
          errs !! f = Some m ->
          m = "value is required" \/ m = "empty map specified"
          \/ m = "empty list specified" \/ m = "invalid value").
Proof.
  eexists. split; [reflexivity|]. split; [|split].
  - intros f Hf. by rewrite fold_errors_other.
  - intros l1 err l2 -> Hl2. rewrite fold_left_app. cbn [fold_left].
    rewrite fold_errors_other by done. apply lookup_insert_eq.
  - intros f m Hm. apply fold_errors_origin in Hm as [Hm|(e & _ & ->)].
    + by rewrite lookup_empty in Hm.
    + apply message_cases.
Qed.

Lemma ValidateStruct_messages_witness :
  exists errs,
    httphelpers.ValidateStruct
      (Some [ {| Field := "id"; Tag := "gt"; Param := "0"; Kind := Slice |};
              {| Field := "id"; Tag := "required"; Param := "";
                 Kind := other_kind |} ]) = Some errs
    /\ errs !! "id" = Some "value is required".
Proof.
  destruct (ValidateStruct_messages
              [ {| Field := "id"; Tag := "gt"; Param := "0"; Kind := Slice |};
                {| Field := "id"; Tag := "required"; Param := "";
                   Kind := other_kind |} ])
    as (errs & He & _ & Hlast & _).
  exists errs. split; [exact He|].
  apply (Hlast [ {| Field := "id"; Tag := "gt"; Param := "0";
                    Kind := Slice |} ]
               {| Field := "id"; Tag := "required"; Param := "";
                  Kind := other_kind |} []); [reflexivity|].
  intros e [].
Defined.

(** ** The token handlers *)

(** X21. The handlers that look an entity up answer 500, not 404, when
    it is not there: [Get] and [Refresh] of the token controller for a
    user and service without Token row, and [Get] of the app controller
    for a service without enabled App, render [sql.ErrNoRows] with
    status 500 and leave the store as it was. *)
Theorem missing_entity_answers_500 r env s :
  (forall uid,
     URLParam r "userID" <> "" -> URLParam r "service" <> "" ->
     int4in env (URLParam r "userID") = Some uid ->
     tokens_t s !! (uid, URLParam r "service") = None ->
     fault env (SelectToken (URLParam r "userID") (URLParam r "service"))
     = false ->
     let answer :=
       ({| StatusCode := 500;
           Body := ErrorResponse (of_model sql_ErrNoRows) |},
        {| store := s;
           log := [SelectToken (URLParam r "userID")
                     (URLParam r "service")] |}) in
     tokens_controller.Get r env s = answer
     /\ tokens_controller.Refresh r env s = answer)
  /\ (URLParam r "service" <> "" ->
      ~ has_enabled_app s (URLParam r "service") ->
      fault env (SelectAppByService (URLParam r "service") apps.StatusEnable)
      = false ->
      apps_controller.Get r env s =
      ({| StatusCode := 500;
          Body := ErrorResponse (of_model sql_ErrNoRows) |},
       {| store := s;
          log := [SelectAppByService (URLParam r "service")
                    apps.StatusEnable] |})).
Proof.
  split.
  - intros uid Hu Hs Hid Hrow Hok. cbn zeta.
    unfold tokens_controller.Get, tokens_controller.Refresh.
    destruct (String.eqb_spec (URLParam r "userID") ""); [done|].
    destruct (String.eqb_spec (URLParam r "service") ""); [done|].
    rewrite tokens_Get_run, Refresh_eq, tokens_select_eq, Hok, Hid, Hrow.
    done.
  - intros Hs Hno Hok. unfold apps_controller.Get.
    destruct (String.eqb_spec (URLParam r "service") ""); [done|].
    rewrite GetByService_run, Hok.
    destruct (find _ _) as [row|] eqn:Hf; [|done].
    exfalso. apply Hno, find_enabled_app. by exists row.
Qed.

Lemma missing_entity_answers_500_witness :
  StatusCode
    (fst (tokens_controller.Get
            (Scenario.request [("userID", "7"); ("service", "yandex")] [])
            Fixtures.sound Fixtures.store)) = 500.
Proof.
  destruct (missing_entity_answers_500
              (Scenario.request [("userID", "7"); ("service", "yandex")] [])
              Fixtures.sound Fixtures.store) as [H _].
  destruct (H 7 ltac:(discriminate) ltac:(discriminate) eq_refl eq_refl
              eq_refl) as [Hg _].
  rewrite Hg. reflexivity.
Defined.

(** Split a statement about the status of a response that is known, and
    settle the parts that compare status codes. *)
Ltac status_cases :=
  cbn; repeat split; try tauto; try done; try (intros [?|?]; done);
  try (intros [?|[?|?]]; done).

(** X22. [Get] of the token controller never changes the store. It
    answers 404 exactly when the user or the service parameter is empty,
    and then without a statement; otherwise 200 with the stored Token of
    that user and service, or 500. *)
Theorem tokens_Get_handler r env s :
  let resp := fst (tokens_controller.Get r env s) in
  let w := snd (tokens_controller.Get r env s) in
  store w = s
  /\ (StatusCode resp = 200 \/ StatusCode resp = 404 \/ StatusCode resp = 500)
  /\ (StatusCode resp = 404
      <-> URLParam r "userID" = "" \/ URLParam r "service" = "")
  /\ (StatusCode resp = 404 -> log w = [])
  /\ (StatusCode resp = 200 ->
      exists uid row,
        int4in env (URLParam r "userID") = Some uid
        /\ tokens_t s !! (uid, URLParam r "service") = Some row
        /\ Body resp
           = tokenResponse (tokens.scan uid (URLParam r "service") row)).
Proof.
  cbn zeta. unfold tokens_controller.Get.
  destruct (String.eqb_spec (URLParam r "userID") "") as [Hu|Hu];
    [status_cases|].
  destruct (String.eqb_spec (URLParam r "service") "") as [Hs|Hs];
    [status_cases|].
  rewrite tokens_Get_run, tokens_select_eq.
  destruct (fault env _); [status_cases|].
  destruct (int4in env (URLParam r "userID")) as [uid|]; [|status_cases].
  destruct (tokens_t s !! (uid, URLParam r "service")) as [row|] eqn:Hrow;
    [|status_cases].
  status_cases. intros _. by exists uid, row.
Qed.

(** X23. [Create] of the token controller answers 400 exactly when the
    code or the state is empty, and then without a statement; otherwise
    201 exactly when [tokens.Create] succeeded, and 500 when it failed;
    unless the answer is 201 no Token row has been written. *)
Theorem tokens_Create_handler r env s :
  let resp := fst (tokens_controller.Create r env s) in
  let w := snd (tokens_controller.Create r env s) in
  (StatusCode resp = 201 \/ StatusCode resp = 400 \/ StatusCode resp = 500)
  /\ (StatusCode resp = 400
      <-> FormValue r "code" = "" \/ FormValue r "state" = "")
  /\ (StatusCode resp = 400 -> w = {| store := s; log := [] |})
  /\ (StatusCode resp = 201
      <-> FormValue r "code" <> "" /\ FormValue r "state" <> ""
          /\ exists uid,
               run (tokens.Create (FormValue r "code") (FormValue r "state"))
                 env s = (Ok uid, w))
  /\ (StatusCode resp <> 201 -> tokens_t (store w) = tokens_t s).
Proof.
  cbn zeta. unfold tokens_controller.Create.
  destruct (String.eqb_spec (FormValue r "code") "") as [Hc|Hc];
    [status_cases; intros (? & _); done|].
  destruct (String.eqb_spec (FormValue r "state") "") as [Hs|Hs];
    [status_cases; intros (_ & ? & _); done|].
  destruct (run (tokens.Create _ _) env s) as [[uid|e] w] eqn:Hrun.
  - status_cases. by exists uid.
  - status_cases.
    + intros (_ & _ & uid & Hu). discriminate Hu.
    + intros _. exact (tokens_Create_failure_tokens _ _ _ _ _ _ Hrun).
Qed.

Lemma tokens_Get_handler_witness :
  exists row,
    Body (fst (tokens_controller.Get
                 (Scenario.request [("userID", "42"); ("service", "google")] [])
                 Fixtures.sound Fixtures.store))
    = tokenResponse (tokens.scan 42 "google" row)
    /\ k_access_token row = "at-google".
Proof.
  destruct (tokens_Get_handler
              (Scenario.request [("userID", "42"); ("service", "google")] [])
              Fixtures.sound Fixtures.store) as (_ & _ & _ & _ & H).
  destruct (H eq_refl) as (uid & row & Hid & Hrow & Hbody).
  injection Hid as <-. exists row. split; [exact Hbody|].
  vm_compute in Hrow. injection Hrow as <-. reflexivity.
Defined.

Lemma tokens_Create_handler_witness :
  snd (tokens_controller.Create
         (Scenario.request [] [("code", ""); ("state", "state-1")])
         Fixtures.sound Fixtures.store)
  = {| store := Fixtures.store; log := [] |}.
Proof.
  destruct (tokens_Create_handler
              (Scenario.request [] [("code", ""); ("state", "state-1")])
              Fixtures.sound Fixtures.store) as (_ & _ & H & _).
  exact (H eq_refl).
Defined.

(** ** The app handlers *)

(** X24. [SetStatus] of the app controller never answers 200 or 409: it
    answers 404 when the id or the status parameter is empty and 500
    otherwise, also when the status is valid and the [UPDATE] has been
    applied, and also, with [ErrStatus], when the status is invalid. *)
Theorem SetStatus_handler r env s :
  let resp := fst (apps_controller.SetStatus r env s) in
  let w := snd (apps_controller.SetStatus r env s) in
  let id := URLParam r "appID" in
  let status := URLParam r "status" in
  (StatusCode resp = 404 \/ StatusCode resp = 500)
  /\ (StatusCode resp = 404 <-> id = "" \/ status = "")
  /\ (id <> "" -> status <> "" ->
      status <> apps.StatusEnable -> status <> apps.StatusDisable ->
      resp = httphelpers.InternalServerError (of_model apps_ErrStatus)
      /\ w = {| store := s; log := [] |})
  /\ (id <> "" -> status = apps.StatusEnable \/ status = apps.StatusDisable ->
      fault env (UpdateAppStatus id status) = false ->
      resp = httphelpers.InternalServerError (of_model sql_ErrNoRows)
      /\ apps_t (store w)
         = map (fun row => if apps.by_id id row
                           then apps.set_status status row else row)
               (apps_t s)).
Proof.
  cbn zeta. unfold apps_controller.SetStatus.
  destruct (String.eqb_spec (URLParam r "appID") "") as [Hi|Hi];
    [status_cases|].
  destruct (String.eqb_spec (URLParam r "status") "") as [Hs|Hs].
  { status_cases;
      match goal with
      | Hv : _ \/ _ |- _ =>
          destruct Hv as [Hv|Hv]; rewrite Hv in Hs; discriminate Hs
      end. }
  rewrite SetStatus_eq. cbn zeta.
  assert (H404 : forall code : Z,
    code = 500 ->
    (code = 404 \/ code = 500)
    /\ (code = 404
        <-> URLParam r "appID" = "" \/ URLParam r "status" = "")).
  { intros code ->. split; [by right|]. split; [done|]. by intros [?|?]. }
  destruct (negb _ && negb _) eqn:Hv.
  - apply andb_true_iff in Hv as [Hd He].
    apply negb_true_iff, String.eqb_neq in Hd, He.
    cbn [fst snd httphelpers.InternalServerError httphelpers.NewErrorResponse
         StatusCode].
    destruct (H404 500 eq_refl) as [H1 H2].
    split; [exact H1|]. split; [exact H2|]. split; [done|].
    by intros _ [?|?].
  - apply andb_false_iff in Hv.
    assert (Hvalid : ~ (URLParam r "status" <> apps.StatusEnable
                        /\ URLParam r "status" <> apps.StatusDisable)).
    { intros [He Hd].
      destruct Hv as [Hv|Hv]; apply negb_false_iff, String.eqb_eq in Hv;
        done. }
    destruct (fault env _) eqn:Hf;
      cbn [fst snd httphelpers.InternalServerError
           httphelpers.NewErrorResponse StatusCode store apps_t];
      destruct (H404 500 eq_refl) as [H1 H2];
      (split; [exact H1|]); (split; [exact H2|]);
      (split; [intros; exfalso; tauto|]).
    + intros _ _ Hok. discriminate Hok.
    + done.
Qed.

Lemma SetStatus_handler_witness :
  fst (apps_controller.SetStatus
         (Scenario.request [("appID", "abc"); ("status", "disable")] [])
         Fixtures.sound Fixtures.store)
  = {| StatusCode := 500; Body := ErrorResponse (of_model sql_ErrNoRows) |}.
Proof.
  destruct (SetStatus_handler
              (Scenario.request [("appID", "abc"); ("status", "disable")] [])
              Fixtures.sound Fixtures.store) as (_ & _ & _ & H).
  destruct (H ltac:(discriminate) (or_intror eq_refl) eq_refl) as [Hr _].
  exact Hr.
Defined.

Lemma GetByID_eq id env w :
  apps.GetByID id env w =
  (if fault env (SelectAppByID id) then Err driver_error
   else match find (apps.by_id id) (apps_t (store w)) with
        | None => Err sql_ErrNoRows
        | Some row => Ok (apps.scan row)
        end,
   {| store := store w; log := log w ++ [SelectAppByID id] |}).
Proof.
  unfold apps.GetByID. rewrite bind_eq, send_eq.
  destruct (fault env _); [done|].
  unfold bind, get_store, fail, ret; cbn [store log].
  by destruct (find _ _).
Qed.

(** X25. When [Create] of the app controller answers 201, the request
    carried an App, the service parameter was not empty, the id was free,
    and the App is stored with the service of the URL (not the one of
    the body) and the status of the body; the App in the answer is the
    stored one read back, with [created_at] the time of the insert and
    an empty status. *)
Theorem apps_Create_handler_created lib r env s a :
  fst (apps_controller.Create lib r env s)
  = {| StatusCode := 201; Body := appResponse a |} ->
  exists sent conformed,
    Decoded r = Some (Some sent)
    /\ conform_Struct lib sent = inl conformed
    /\ URLParam r "service" <> ""
    /\ ~ In (App.ID conformed) (map App.ID (apps_t s))
    /\ a = {| App.ID := App.ID conformed;
              App.Service := URLParam r "service";
              App.Password := App.Password conformed;
              App.CallbackURL := App.CallbackURL conformed;
              App.Expiry := App.Expiry conformed;
              App.CreatedAt := Some (now env);
              App.Status := "" |}
    /\ apps_t (store (snd (apps_controller.Create lib r env s)))
       = (apps_t s ++
          [{| App.ID := App.ID conformed;
              App.Service := URLParam r "service";
              App.Password := App.Password conformed;
              App.CallbackURL := App.CallbackURL conformed;
              App.Expiry := App.Expiry conformed;
              App.CreatedAt := Some (now env);
              App.Status := App.Status conformed |}])%list.
Proof.
  unfold apps_controller.Create, apps_controller.Bind.
  destruct (Decoded r) as [[sent|]|] eqn:Hd; [|done|done].
  destruct (conform_Struct lib sent) as [conformed|] eqn:Hc; [|done].
  destruct (String.eqb_spec (URLParam r "service") "") as [?|Hs]; [done|].
  destruct (httphelpers.ValidateStruct _); [done|].
  rewrite apps_Create_eq. cbn zeta.
  cbn [apps_controller.with_service App.ID App.Service App.Password
       App.CallbackURL App.Expiry App.CreatedAt App.Status].
  destruct (fault env (InsertApp _ _)); [done|].
  destruct (find _ (apps_t s)) eqn:Hf; [done|].
  rewrite GetByID_eq. cbn [store log apps_t].
  destruct (fault env (SelectAppByID _)); [done|].
  erewrite find_by_id_app; [|exact Hf|reflexivity].
  cbn [fst snd store apps_t apps.scan App.ID App.Service App.Password
       App.CallbackURL App.Expiry App.CreatedAt App.Status].
  intros [= <-]. exists sent, conformed.
  split; [done|]. split; [done|]. split; [done|].
  split; [by apply find_by_id_None|]. done.
Qed.

Lemma apps_Create_handler_created_witness :
  fst (apps_controller.Create Scenario.lib
         (Scenario.post [("service", "vk")]
            (Fixtures.app "new" "google" "disable"))
         Fixtures.sound Fixtures.store)
  = {| StatusCode := 201;
       Body := appResponse
                 {| App.ID := "new"; App.Service := "vk";
                    App.Password := "secret";
                    App.CallbackURL := "https://x/cb"; App.Expiry := None;
                    App.CreatedAt := Some 1000; App.Status := "" |} |}
  /\ In "new"
       (map App.ID
          (apps_t (store (snd (apps_controller.Create Scenario.lib
                                 (Scenario.post [("service", "vk")]
                                    (Fixtures.app "new" "google" "disable"))
                                 Fixtures.sound Fixtures.store))))).
Proof.
  split; [reflexivity|].
  destruct (apps_Create_handler_created Scenario.lib
              (Scenario.post [("service", "vk")]
                 (Fixtures.app "new" "google" "disable"))
              Fixtures.sound Fixtures.store _ eq_refl)
    as (sent & conformed & Hd & Hc & _ & _ & _ & Hst).
  injection Hd as <-. injection Hc as <-.
  rewrite Hst, map_app. apply in_or_app. right. by left.
Defined.

(** X26. [AuthCodeURL] of the app controller answers 404 exactly when
    the service parameter is empty and 400 exactly when it is not and the
    user parameter is not an integer, in both cases without a statement;
    it stores an Exchange only when it answers 200, and then the Exchange
    is stored under the state of the URL it returns, for the service and
    the user of the request. *)
Theorem AuthCodeURL_handler lib r env s :
  let resp := fst (apps_controller.AuthCodeURL lib r env s) in
  let w := snd (apps_controller.AuthCodeURL lib r env s) in
  (StatusCode resp = 200 \/ StatusCode resp = 400 \/ StatusCode resp = 404
   \/ StatusCode resp = 500)
  /\ (StatusCode resp = 404 <-> URLParam r "service" = "")
  /\ (StatusCode resp = 400
      <-> URLParam r "service" <> ""
          /\ snd (Atoi lib (URLParam r "userID")) = true)
  /\ (StatusCode resp = 400 \/ StatusCode resp = 404 -> log w = [])
  /\ (StatusCode resp <> 200 -> store w = s)
  /\ (StatusCode resp = 200 ->
      exists conf id,
        Body resp = authCodeURLResponse (oauth2.AuthCodeURL conf id)
        /\ exchanges_t (store w) !! id
           = Some {| x_service := URLParam r "service";
                     x_user_id := fst (Atoi lib (URLParam r "userID")) |}).
Proof.
  cbn zeta. unfold apps_controller.AuthCodeURL.
  destruct (String.eqb_spec (URLParam r "service") "") as [Hs|Hs].
  { destruct (Atoi lib _); status_cases; intros [? _]; done. }
  destruct (Atoi lib (URLParam r "userID")) as [userID [|]]; cbn [fst snd].
  { status_cases. }
  destruct (run (apps.AuthCodeURL _ userID) env s) as [[url|e] w] eqn:Hrun.
  - apply AuthCodeURL_inv in Hrun as (conf & _ & -> & _ & Hx).
    status_cases; try (intros [_ ?]; done).
    by eexists _, _.
  - apply AuthCodeURL_failure_store in Hrun.
    status_cases; intros [_ ?]; done.
Qed.

Lemma AuthCodeURL_handler_witness :
  log (snd (apps_controller.AuthCodeURL Scenario.lib
              (Scenario.request [("service", "yandex"); ("userID", "x")] [])
              Fixtures.sound Fixtures.store))
  = [].
Proof.
  destruct (AuthCodeURL_handler Scenario.lib
              (Scenario.request [("service", "yandex"); ("userID", "x")] [])
              Fixtures.sound Fixtures.store) as (_ & _ & _ & Hl & _).
  apply Hl. left. reflexivity.
Defined.

(** X27. Over HTTP the delegation goes through: when [AuthCodeURL] of
    the app controller has answered 200 with a URL, a request to
    [Create] of the token controller carrying the state of that URL and
    a code the provider accepts, on a database that answers, is answered
    201, and a Token row is stored for the user and the service of the
    first request with the provider's access token. *)
Theorem http_delegation lib r env s conf id r' env' tk :
  fst (apps_controller.AuthCodeURL lib r env s)
  = render.Render (authCodeURLResponse (oauth2.AuthCodeURL conf id)) ->
  FormValue r' "code" <> "" ->
  FormValue r' "state" = id ->
  (forall ev, fault env' ev = false) ->
  provider_exchange env' conf (FormValue r' "code") = Ok tk ->
  let s1 := store (snd (apps_controller.AuthCodeURL lib r env s)) in
  fst (tokens_controller.Create r' env' s1)
  = {| StatusCode := 201; Body := plain "" |}
  /\ exists row,
       tokens_t (store (snd (tokens_controller.Create r' env' s1)))
         !! (fst (Atoi lib (URLParam r "userID")), URLParam r "service")
       = Some row
       /\ k_access_token row = oauth2.AccessToken tk.
Proof.
  unfold apps_controller.AuthCodeURL.
  destruct (String.eqb_spec (URLParam r "service") "") as [Hs|Hs].
  { by destruct (Atoi lib _). }
  destruct (Atoi lib (URLParam r "userID")) as [userID [|]]; [done|].
  destruct (run (apps.AuthCodeURL _ userID) env s) as [[url|e] w] eqn:Hrun;
    [|done].
  cbn [fst snd]. intros [= ->] Hcode Hstate Hok Hp.
  apply AuthCodeURL_inv in Hrun as (conf0 & Hc & Hurl & Ha & Hx).
  injection Hurl as -> ->.
  assert (Hid : random_string env 32 <> "").
  { intros He. pose proof (proj1 (random_string_spec env 32)) as Hl.
    rewrite He in Hl. discriminate Hl. }
  destruct (Create_pending env' (store w) (URLParam r "service") userID conf0
              (random_string env 32) (FormValue r' "code") tk Hx)
    as (w' & row & Hrun' & Hrow & Hat & _); try done.
  { by apply (GetConf_Ok_elsewhere env env' s). }
  cbn zeta. unfold tokens_controller.Create.
  destruct (String.eqb_spec (FormValue r' "code") ""); [done|].
  rewrite Hstate.
  destruct (String.eqb_spec (random_string env 32) ""); [done|].
  rewrite Hrun'. cbn [fst snd]. split; [done|]. by exists row.
Qed.

Lemma http_delegation_witness :
  fst (tokens_controller.Create
         (Scenario.request []
            [("code", "c1"); ("state", "0123456789abcdefghijklmnopqrstuv")])
         Fixtures.sound
         (store (snd (apps_controller.AuthCodeURL Scenario.lib
                        (Scenario.request
                           [("service", "yandex"); ("userID", "42")] [])
                        Fixtures.sound Fixtures.fresh))))
  = {| StatusCode := 201; Body := plain "" |}.
Proof.
  exact (proj1 (http_delegation Scenario.lib
                  (Scenario.request [("service", "yandex"); ("userID", "42")]
                     [])
                  Fixtures.sound Fixtures.fresh _ _
                  (Scenario.request []
                     [("code", "c1");
                      ("state", "0123456789abcdefghijklmnopqrstuv")])
                  Fixtures.sound (Fixtures.granted "c1")
                  eq_refl ltac:(discriminate) eq_refl (fun _ => eq_refl)
                  eq_refl)).
Defined.

(** X28. [Create] of the app controller sends no statement when it
    answers 400, 404 or 422 (the body does not decode or carries no App,
    the service parameter is empty, the validator reports a field), and
    it answers 409 only for an id that is already stored, leaving the
    store as it was. *)
Theorem apps_Create_handler_rejected lib r env s :
  let resp := fst (apps_controller.Create lib r env s) in
  let w := snd (apps_controller.Create lib r env s) in
  (StatusCode resp = 400 \/ StatusCode resp = 404 \/ StatusCode resp = 422 ->
   w = {| store := s; log := [] |})
  /\ (StatusCode resp = 400 <-> Decoded r = None \/ Decoded r = Some None)
  /\ (StatusCode resp = 409 ->
      store w = s
      /\ Body resp = ErrorResponse (of_model apps_ErrExists)
      /\ exists sent conformed row,
           Decoded r = Some (Some sent)
           /\ conform_Struct lib sent = inl conformed
           /\ In row (apps_t s) /\ App.ID row = App.ID conformed).
Proof.
  cbn zeta. unfold apps_controller.Create, apps_controller.Bind.
  destruct (Decoded r) as [[sent|]|] eqn:Hd;
    [|status_cases; by right|status_cases; by left].
  destruct (conform_Struct lib sent) as [conformed|] eqn:Hc;
    [|status_cases].
  destruct (String.eqb_spec (URLParam r "service") "") as [?|Hs];
    [status_cases|].
  destruct (httphelpers.ValidateStruct _); [status_cases|].
  rewrite apps_Create_eq. cbn zeta.
  cbn [apps_controller.with_service App.ID].
  destruct (fault env (InsertApp _ _)); [status_cases|].
  destruct (find _ (apps_t s)) as [row|] eqn:Hf.
  - apply find_some in Hf as [Hin Hid]. apply String.eqb_eq in Hid.
    status_cases. by exists sent, conformed, row.
  - rewrite GetByID_eq. cbn [store log apps_t].
    destruct (fault env (SelectAppByID _)); [status_cases|].
    cbn [App.Service App.Password App.CallbackURL App.Expiry App.Status
         apps_controller.with_service].
    erewrite find_by_id_app; [|exact Hf|reflexivity]. status_cases.
Qed.

Lemma apps_Create_handler_rejected_witness :
  store (snd (apps_controller.Create Scenario.lib
                (Scenario.post [("service", "vk")]
                   (Fixtures.app "abc" "vk" "enable"))
                Fixtures.sound Fixtures.store))
  = Fixtures.store.
Proof.
  destruct (apps_Create_handler_rejected Scenario.lib
              (Scenario.post [("service", "vk")]
                 (Fixtures.app "abc" "vk" "enable"))
              Fixtures.sound Fixtures.store) as (_ & _ & H).
  exact (proj1 (H eq_refl)).
Defined.

(** ** Field names for the validator *)

Lemma before_comma_no_comma s :
  ~ In ","%char (list_ascii_of_string (httphelpers.before_comma s)).
Proof.
  induction s as [|c s IH]; [by intros []|]. cbn.
  destruct (Ascii.eqb_spec c ","%char) as [->|Hc]; [by intros []|].
  cbn. intros [H|H]; [done | by apply IH].
Qed.

Lemma before_comma_app name rest :
  ~ In ","%char (list_ascii_of_string name) ->
  httphelpers.before_comma (name ++ String "," rest) = name.
Proof.
  induction name as [|c name IH]; intros Hn; [done|].
  change (httphelpers.before_comma (String c name ++ String "," rest))
    with (if Ascii.eqb c ","
          then EmptyString
          else String c (httphelpers.before_comma
                           (name ++ String "," rest))).
  cbn in Hn.
  destruct (Ascii.eqb_spec c ","%char) as [->|Hc]; [tauto|].
  f_equal. apply IH. tauto.
Qed.

(** X29. The field name registered with the validator is the [json] tag
    up to its first comma: it never contains a comma and is never "-";
    for a tag [name,options] it is [name], unless [name] is "-", for
    which it is empty. *)
Theorem TagName_of_json_tag json :
  ~ In ","%char (list_ascii_of_string (httphelpers.TagName json))
  /\ httphelpers.TagName json <> "-"
  /\ (forall name options,
        json = name ++ String "," options ->
        ~ In ","%char (list_ascii_of_string name) ->
        httphelpers.TagName json = if String.eqb name "-" then "" else name).
Proof.
  unfold httphelpers.TagName. cbn zeta. split; [|split].
  - destruct (String.eqb _ "-"); [by intros []|].
    apply before_comma_no_comma.
  - destruct (String.eqb_spec (httphelpers.before_comma json) "-");
      [discriminate | done].
  - intros name options -> Hn. by rewrite before_comma_app.
Qed.

Lemma TagName_of_json_tag_witness :
  httphelpers.TagName "callback_URL,omitempty" = "callback_URL".
Proof.
  destruct (TagName_of_json_tag "callback_URL,omitempty") as (_ & _ & H).
  apply (H "callback_URL" "omitempty"); [reflexivity|].
  cbn. intros H0.
  repeat (destruct H0 as [H0|H0]; [discriminate H0|]). exact H0.
Defined.
